(** * httpcheck: a shallow embedding of the Checker and its cookie jar

    The development follows [httpcheck.go] and [readcloser.go].  Go values
    are modelled as follows:

    - [string] is a Rocq [string] (a sequence of bytes), [[]byte] is a
      [list byte]; where the code tells a nil slice from an empty one (the
      argument of [HasBody], compared by testify) the slice is an
      [option (list byte)] and [None] is the nil slice;
    - [map[string]string] and [http.Header] are [gmap]s; a [nil] map is
      [None], a [nil] pointer is [None];
    - a [bytes.Buffer] is the list of the bytes that have not been read yet;
    - a run-time panic is the [Panic] result, every method of the Checker
      returns [Result Checker];
    - [*testing.T] is the list of the failures recorded so far;
    - the order in which [range] walks a map and the outcome of a call of
      [json.Marshal] or [xml.Marshal] are chosen by the Go runtime at every
      call: the methods that depend on them take them as an argument. *)

From Stdlib Require Import ZArith.
From Stdlib.Strings Require Import Ascii Byte.
From Stdlib Require String.
From stdpp Require Import gmap strings list fin_maps.

Local Open Scope Z_scope.

(** ** Panics *)

Inductive Result (A : Type) : Type :=
| Ok (a : A)
| Panic (msg : string).
Arguments Ok {A} a.
Arguments Panic {A} msg.

#[global] Instance Result_ret : MRet Result := λ A a, Ok a.
#[global] Instance Result_bind : MBind Result := λ A B f m,
  match m with
  | Ok a => f a
  | Panic msg => Panic msg
  end.

Definition panics {A} (m : Result A) : bool :=
  match m with Ok _ => false | Panic _ => true end.

Definition nil_dereference : string :=
  "invalid memory address or nil pointer dereference".

(** [*p] for a pointer [p] *)
Definition deref {A} (p : option A) : Result A :=
  match p with
  | Some a => Ok a
  | None => Panic nil_dereference
  end.

(** [for _, x := range l { s = body(s, x) }], a panic of the body leaves
    the loop *)
Fixpoint for_range {S A} (body : S → A → Result S) (s : S) (l : list A)
  : Result S :=
  match l with
  | [] => Ok s
  | x :: l' => s' ← body s x; for_range body s' l'
  end.

(** ** Strings *)

Definition len (s : string) : Z := Z.of_nat (String.length s).

(** [strings.Index(s, substr)]: the index of the first instance of [substr]
    in [s], or -1 *)
Fixpoint strings_Index (s substr : string) : Z :=
  if String.prefix substr s then 0
  else match s with
       | EmptyString => -1
       | String _ s' =>
           let i := strings_Index s' substr in
           if i <? 0 then -1 else i + 1
       end.

(** [s[lo:hi]] *)
Definition slice (s : string) (lo hi : Z) : Result string :=
  if (0 <=? lo) && (lo <=? hi) && (hi <=? len s)
  then Ok (String.substring (Z.to_nat lo) (Z.to_nat (hi - lo)) s)
  else Panic "slice bounds out of range".

(** [s] has an occurrence of [sub] *)
Definition contains (s sub : string) : Prop :=
  ∃ pre post, s = pre +:+ sub +:+ post.

(** What [strings.Index(str, "=")] returns. *)
Inductive Index_spec (str : string) : Z → Prop :=
| Index_none : ¬ contains str "=" → Index_spec str (-1)
| Index_found (pre post : string) :
    str = pre +:+ "=" +:+ post → ¬ contains pre "=" →
    Index_spec str (len pre).

(** ** net/http data *)

(** [http.Header], [None] is the nil map *)
Abbreviation Header := (option (gmap string (list string))).

(** [bytes.Buffer]: the unread bytes *)
Abbreviation Buffer := (list byte).

(** [Read(p)] of a [bytes.Buffer] with [n = len(p)]: the bytes copied into [p],
    the error, the buffer afterwards *)
Definition Buffer_Read (b : Buffer) (n : nat) : list byte * option string * Buffer :=
  match b with
  | [] => ([], if decide (n = 0%nat) then None else Some "EOF", [])
  | _ => (take n b, None, drop n b)
  end.

(** Modelled from the spec: [newClosingBuffer] and [newClosingBufferString]
    are not among the sources; the spec has them make "a closable stream
    wrapping the given bytes/text". *)
Record closingBuffer := { buf : Buffer }.

Definition newClosingBuffer (body : list byte) : closingBuffer :=
  {| buf := body |}.

Definition newClosingBufferString (body : string) : closingBuffer :=
  {| buf := String.list_byte_of_string body |}.

Module Request.
Record t := {
  Method : string;
  URL : string;
  Header : Header;
  Body : option closingBuffer
}.
End Request.

(** readcloser.go *)
Record ReadCloser := { rd : Buffer }.

Definition NewReadCloser (rd : Buffer) : ReadCloser := {| rd := rd |}.

Definition ReadCloser_Read (rc : ReadCloser) (n : nat)
  : list byte * option string * ReadCloser :=
  let '(p, err, b) := Buffer_Read (rd rc) n in (p, err, {| rd := b |}).

Definition ReadCloser_Close (rc : ReadCloser) : option string := None.

Module Response.
Record t := {
  StatusCode : Z;
  Body : ReadCloser;
  Header : Header
}.
End Response.

(** [httptest.ResponseRecorder] *)
Record ResponseRecorder := {
  Code : Z;
  HeaderMap : Header;
  RecBody : Buffer
}.

Definition NewRecorder : ResponseRecorder :=
  {| Code := 200; HeaderMap := Some ∅; RecBody := [] |}.

(** [Header()] of the recorder never returns nil *)
Definition Recorder_Header (rw : ResponseRecorder) : Header :=
  match HeaderMap rw with
  | Some m => Some m
  | None => Some ∅
  end.

(** [ioutil.ReadAll]: read chunks until the reader reports EOF, which is
    not an error of ReadAll.  Every read of a buffer that is not empty takes
    at least one byte, so [length + 1] reads reach EOF and the branch of the
    spent budget is not taken ([ReadAll_loop_all]). *)
Fixpoint ReadAll_loop (fuel : nat) (r : ReadCloser) (b : list byte)
  : list byte * option string * ReadCloser :=
  match fuel with
  | O => (b, Some "unexpected", r)
  | S fuel' =>
      let '(p, err, r') := ReadCloser_Read r 512 in
      match err with
      | Some e => (b ++ p, if decide (e = "EOF") then None else Some e, r')
      | None => ReadAll_loop fuel' r' (b ++ p)
      end
  end.

Definition ioutil_ReadAll (r : ReadCloser)
  : list byte * option string * ReadCloser :=
  ReadAll_loop (S (length (rd r))) r [].

(** ** The parts of Go's library the Checker calls

    Their results depend on the version of the library; the development
    holds for each choice. *)
Class GoLib := {
  (** what [interface{}] ranges over *)
  Value : Type;
  strings_ToUpper : string → string;
  (** the error of [http.NewRequest(method, url, nil)], if any *)
  NewRequest_error : string → string → option string;
  CanonicalMIMEHeaderKey : string → string;
  sanitizeCookieName : string → string;
  sanitizeCookieValue : string → string
}.

(** [http.Handler]: the handler writes to the recorder, may read the request
    and may change its own state.  It is taken to return. *)
Class Handler (H : Type) :=
  ServeHTTP : H → ResponseRecorder → Request.t → H * ResponseRecorder * Request.t.

(** ** testing.T and testify's assert *)

Abbreviation testing_T := (list string).

Definition assert_that (t : testing_T) (ok : bool) (msg : string) : testing_T :=
  if ok then t else t ++ [msg].

Definition assert_NotNil {A} (t : testing_T) (object : option A) (msg : string)
  : testing_T :=
  assert_that t (match object with Some _ => true | None => false end) msg.

Definition assert_Nil {A} (t : testing_T) (object : option A) (msg : string)
  : testing_T :=
  assert_that t (match object with Some _ => false | None => true end) msg.

(** [assert.Exactly] and [assert.Equal] on two strings or two integers *)
Definition assert_Exactly `{EqDecision A} (t : testing_T) (expected actual : A)
  : testing_T :=
  assert_that t (bool_decide (expected = actual)) "".

Definition assert_Equal `{EqDecision A} (t : testing_T) (expected actual : A)
  : testing_T :=
  assert_that t (bool_decide (expected = actual)) "".

#[global] Instance byte_eq_dec : EqDecision byte := Byte.byte_eq_dec.

(** testify's [ObjectsAreEqual] on two [[]byte]: when one of them is nil
    the other must be nil, otherwise [bytes.Equal] decides *)
Definition ObjectsAreEqual_bytes (expected actual : option (list byte)) : bool :=
  match expected, actual with
  | None, None => true
  | None, Some _ | Some _, None => false
  | Some exp, Some act => bool_decide (exp = act)
  end.

(** [assert.Equal] on two [[]byte] *)
Definition assert_Equal_bytes (t : testing_T)
  (expected actual : option (list byte)) : testing_T :=
  assert_that t (ObjectsAreEqual_bytes expected actual) "".

Definition assert_True (t : testing_T) (value : bool) : testing_T :=
  assert_that t value "".

(** ** http.Header and http.Request *)

Section Http.
Context {lib : GoLib}.

Definition Header_Get (h : Header) (key : string) : string :=
  match h ≫= (.!! CanonicalMIMEHeaderKey key) with
  | Some (v :: _) => v
  | _ => ""
  end.

Definition Header_Set (h : Header) (key value : string) : Result Header :=
  match h with
  | Some m => Ok (Some (<[CanonicalMIMEHeaderKey key := [value]]> m))
  | None => Panic "assignment to entry in nil map"
  end.

(** [http.NewRequest(method, url, nil)] *)
Definition http_NewRequest (method url : string)
  : option Request.t * option string :=
  let method := if decide (method = "") then "GET" else method in
  match NewRequest_error method url with
  | Some err => (None, Some err)
  | None =>
      (Some {| Request.Method := method; Request.URL := url;
               Request.Header := Some ∅; Request.Body := None |}, None)
  end.

Definition Request_set_Header (r : Request.t) (h : Header) : Request.t :=
  {| Request.Method := Request.Method r; Request.URL := Request.URL r;
     Request.Header := h; Request.Body := Request.Body r |}.

Definition Request_set_Body (r : Request.t) (b : option closingBuffer)
  : Request.t :=
  {| Request.Method := Request.Method r; Request.URL := Request.URL r;
     Request.Header := Request.Header r; Request.Body := b |}.

(** [r.Header.Set(key, value)] *)
Definition Request_Header_Set (r : Request.t) (key value : string)
  : Result Request.t :=
  h ← Header_Set (Request.Header r) key value;
  Ok (Request_set_Header r h).

(** [r.AddCookie(&http.Cookie{Name: name, Value: value})] *)
Definition Request_AddCookie (r : Request.t) (name value : string)
  : Result Request.t :=
  let s := sanitizeCookieName name +:+ "=" +:+ sanitizeCookieValue value in
  let c := Header_Get (Request.Header r) "Cookie" in
  if decide (c ≠ "")
  then Request_Header_Set r "Cookie" (c +:+ "; " +:+ s)
  else Request_Header_Set r "Cookie" s.
End Http.

(** ** httpcheck.go *)

Section Checker.
Context {lib : GoLib} {H : Type} {serve : Handler H}.

Record Checker := {
  t : testing_T;
  handler : H;
  request : option Request.t;
  response : option Response.t;
  cookies : gmap string string
}.

Definition set_t (c : Checker) (t' : testing_T) : Checker :=
  {| t := t'; handler := handler c; request := request c;
     response := response c; cookies := cookies c |}.

Definition set_request (c : Checker) (r : option Request.t) : Checker :=
  {| t := t c; handler := handler c; request := r;
     response := response c; cookies := cookies c |}.

Definition set_response (c : Checker) (r : option Response.t) : Checker :=
  {| t := t c; handler := handler c; request := request c;
     response := r; cookies := cookies c |}.

Definition Response_set_Body (r : Response.t) (b : ReadCloser) : Response.t :=
  {| Response.StatusCode := Response.StatusCode r; Response.Body := b;
     Response.Header := Response.Header r |}.

(** what a call of [json.Marshal] or [xml.Marshal] returns *)
Definition Marshal : Type := Value → list byte * option string.

(** the order in which one [range] loop walks a map *)
Definition MapRange : Type := gmap string string → list (string * string).

Definition valid_range (range : MapRange) : Prop :=
  ∀ m, range m ≡ₚ map_to_list m.

(** what a callback does to the response it is handed *)
Definition Callback : Type := option Response.t → Result (option Response.t).

Definition New (t : testing_T) (handler : H) : Checker :=
  {| t := t; handler := handler; request := None; response := None;
     cookies := ∅ |}.

Definition TestRequest (request : option Request.t) (c : Checker)
  : Result Checker :=
  let c := set_t c (assert_NotNil (t c) request "Request nil") in
  Ok (set_request c request).

Definition Test (method path : string) (c : Checker) : Result Checker :=
  let method := strings_ToUpper method in
  let '(request, err) := http_NewRequest method path in
  let c := set_t c (assert_Nil (t c) err "Failed to make new request") in
  Ok (set_request c request).

Definition WithHeader (key value : string) (c : Checker) : Result Checker :=
  req ← deref (request c);
  req ← Request_Header_Set req key value;
  Ok (set_request c (Some req)).

Definition HasHeader (key expectedValue : string) (c : Checker)
  : Result Checker :=
  resp ← deref (response c);
  let value := Header_Get (Response.Header resp) key in
  Ok (set_t c (assert_Exactly (t c) expectedValue value)).

Definition HasCookie (key expectedValue : string) (c : Checker)
  : Result Checker :=
  let value := default "" (cookies c !! key) in
  let exists_ := bool_decide (is_Some (cookies c !! key)) in
  Ok (set_t c (assert_True (t c)
                 (exists_ && bool_decide (expectedValue = value)))).

Definition WithCookie (key value : string) (c : Checker) : Result Checker :=
  req ← deref (request c);
  req ← Request_AddCookie req key value;
  Ok (set_request c (Some req)).

Definition HasStatus (status : Z) (c : Checker) : Result Checker :=
  resp ← deref (response c);
  Ok (set_t c (assert_Exactly (t c) status (Response.StatusCode resp))).

Definition WithBody (body : list byte) (c : Checker) : Result Checker :=
  req ← deref (request c);
  Ok (set_request c (Some (Request_set_Body req (Some (newClosingBuffer body))))).

Definition WithJson (json_Marshal : Marshal) (value : Value) (c : Checker)
  : Result Checker :=
  let '(encoded, err) := json_Marshal value in
  let c := set_t c (assert_Nil (t c) err "") in
  WithBody encoded c.

Definition HasJson (json_Marshal : Marshal) (value : Value) (c : Checker)
  : Result Checker :=
  resp ← deref (response c);
  let '(body, err, rc) := ioutil_ReadAll (Response.Body resp) in
  let c := set_response c (Some (Response_set_Body resp rc)) in
  let c := set_t c (assert_Nil (t c) err "") in
  let '(valueBytes, err) := json_Marshal value in
  let c := set_t c (assert_Nil (t c) err "") in
  Ok (set_t c (assert_Equal (t c) (String.string_of_list_byte valueBytes)
                 (String.string_of_list_byte body))).

Definition WithXml (xml_Marshal : Marshal) (value : Value) (c : Checker)
  : Result Checker :=
  let '(encoded, err) := xml_Marshal value in
  let c := set_t c (assert_Nil (t c) err "") in
  WithBody encoded c.

Definition HasXml (xml_Marshal : Marshal) (value : Value) (c : Checker)
  : Result Checker :=
  resp ← deref (response c);
  let '(body, err, rc) := ioutil_ReadAll (Response.Body resp) in
  let c := set_response c (Some (Response_set_Body resp rc)) in
  let c := set_t c (assert_Nil (t c) err "") in
  let '(valueBytes, err) := xml_Marshal value in
  let c := set_t c (assert_Nil (t c) err "") in
  Ok (set_t c (assert_Equal (t c) (String.string_of_list_byte valueBytes)
                 (String.string_of_list_byte body))).

(** [body] may be the nil slice; what [ioutil.ReadAll] returns never is *)
Definition HasBody (body : option (list byte)) (c : Checker) : Result Checker :=
  resp ← deref (response c);
  let '(responseBody, err, rc) := ioutil_ReadAll (Response.Body resp) in
  let c := set_response c (Some (Response_set_Body resp rc)) in
  let c := set_t c (assert_Nil (t c) err "") in
  Ok (set_t c (assert_Equal_bytes (t c) body (Some responseBody))).

Definition WithString (body : string) (c : Checker) : Result Checker :=
  req ← deref (request c);
  Ok (set_request c
        (Some (Request_set_Body req (Some (newClosingBufferString body))))).

(** [[]byte(body)] is never nil *)
Definition HasString (body : string) (c : Checker) : Result Checker :=
  HasBody (Some (String.list_byte_of_string body)) c.

Definition set_cookies (c : Checker) (jar : gmap string string) : Checker :=
  {| t := t c; handler := handler c; request := request c;
     response := response c; cookies := jar |}.

(** the body of the loop of [handleCookies]: [c.cookies[name] = value] or
    the panic *)
Definition handleCookies_body (jar : gmap string string) (str : string)
  : Result (gmap string string) :=
  let ind := strings_Index str "=" in
  if ind >? 0 then
    name ← slice str 0 ind;
    value ← slice str (ind + 1) (len str);
    Ok (<[name := value]> jar)
  else Panic "did not find = in cookie string".

Definition handleCookies (r : Response.t) (c : Checker) : Result Checker :=
  match Response.Header r ≫= (.!! "Set-Cookie") with
  | Some header =>
      jar ← for_range handleCookies_body (cookies c) header;
      Ok (set_cookies c jar)
  | None => Ok c
  end.

(** [fmt.Sprintf("%s=%s;", name, val)] *)
Definition Sprintf_cookie (entry : string * string) : string :=
  entry.1 +:+ "=" +:+ entry.2 +:+ ";".

Definition generateCookieString (range : MapRange) (c : Checker) : string :=
  foldl (λ str entry, str +:+ Sprintf_cookie entry) "" (range (cookies c)).

(** The first statement of [Check]: the request with its Cookie header
    set, as it is handed to the handler. *)
Definition outgoing (range : MapRange) (c : Checker) : Result Request.t :=
  req ← deref (request c);
  Request_Header_Set req "Cookie" (generateCookieString range c).

(** [Check], from the recorder to the response: the handler after the
    call, the request after the call and the response built from the
    recorder. *)
Definition dispatch (c : Checker) (req : Request.t)
  : H * Request.t * Response.t :=
  let recorder := NewRecorder in
  let '(h, recorder, req) := ServeHTTP (handler c) recorder req in
  (h, req,
   {| Response.StatusCode := Code recorder;
      Response.Body := NewReadCloser (RecBody recorder);
      Response.Header := Recorder_Header recorder |}).

Definition Check (range : MapRange) (c : Checker) : Result Checker :=
  req ← outgoing range c;
  let '(h, req, resp) := dispatch c req in
  let c := {| t := t c; handler := h; request := Some req;
              response := response c; cookies := cookies c |} in
  c ← handleCookies resp c;
  Ok (set_response c (Some resp)).

Definition Cb (cb : Callback) (c : Checker) : Result Checker :=
  resp ← cb (response c);
  Ok (set_response c resp).

(** ** Sequences of calls on one Checker *)

Inductive Op : Type :=
| OpTestRequest (request : option Request.t)
| OpTest (method path : string)
| OpWithHeader (key value : string)
| OpHasHeader (key expectedValue : string)
| OpHasCookie (key expectedValue : string)
| OpWithCookie (key value : string)
| OpHasStatus (status : Z)
| OpWithJson (json_Marshal : Marshal) (value : Value)
| OpHasJson (json_Marshal : Marshal) (value : Value)
| OpWithXml (xml_Marshal : Marshal) (value : Value)
| OpHasXml (xml_Marshal : Marshal) (value : Value)
| OpWithBody (body : list byte)
| OpHasBody (body : option (list byte))
| OpWithString (body : string)
| OpHasString (body : string)
| OpCheck (range : MapRange)
| OpCb (cb : Callback).

Definition call (c : Checker) (op : Op) : Result Checker :=
  match op with
  | OpTestRequest request => TestRequest request c
  | OpTest method path => Test method path c
  | OpWithHeader key value => WithHeader key value c
  | OpHasHeader key expectedValue => HasHeader key expectedValue c
  | OpHasCookie key expectedValue => HasCookie key expectedValue c
  | OpWithCookie key value => WithCookie key value c
  | OpHasStatus status => HasStatus status c
  | OpWithJson m value => WithJson m value c
  | OpHasJson m value => HasJson m value c
  | OpWithXml m value => WithXml m value c
  | OpHasXml m value => HasXml m value c
  | OpWithBody body => WithBody body c
  | OpHasBody body => HasBody body c
  | OpWithString body => WithString body c
  | OpHasString body => HasString body c
  | OpCheck range => Check range c
  | OpCb cb => Cb cb c
  end.

Definition run (ops : list Op) (c : Checker) : Result Checker :=
  for_range call c ops.
End Checker.

Arguments Checker H : clear implicits.

(** ** What the jar has been told *)

Section Jar.
Context {lib : GoLib} {H : Type} {serve : Handler H}.

(** the name and the value of a Set-Cookie line with '=' at [ind] *)
Definition cookie_pair (str : string) : string * string :=
  let ind := Z.to_nat (strings_Index str "=") in
  (String.substring 0 ind str,
   String.substring (ind + 1) (String.length str - (ind + 1)) str).

(** the Set-Cookie lines of a response *)
Definition set_cookie_lines (r : Response.t) : list string :=
  default [] (Response.Header r ≫= (.!! "Set-Cookie")).

(** the lines that pass the test [ind > 0] of [handleCookies] *)
Definition storable (str : string) : bool := strings_Index str "=" >? 0.

(** the entries that [handleCookies] writes for a response, in order *)
Definition stored_by (r : Response.t) : list (string * string) :=
  cookie_pair <$> set_cookie_lines r.

(** [jar[name] = value] for each entry, in order *)
Definition write_all (jar : gmap string string)
  (entries : list (string * string)) : gmap string string :=
  foldl (λ m entry, <[entry.1 := entry.2]> m) jar entries.

(** a handler that copies the body of the request to the response and
    issues no cookie *)
Definition echoes : Prop :=
  ∀ (h : H) (recorder : ResponseRecorder) (req : Request.t) (b : closingBuffer),
    Request.Body req = Some b →
    RecBody (ServeHTTP h recorder req).1.2 = RecBody recorder ++ buf b
    ∧ Recorder_Header (ServeHTTP h recorder req).1.2 ≫= (.!! "Set-Cookie")
      = Recorder_Header recorder ≫= (.!! "Set-Cookie").

(** the entries written by the executions of a sequence of calls *)
Fixpoint stores (ops : list Op) (c : Checker H) : list (string * string) :=
  match ops with
  | [] => []
  | op :: ops' =>
      match call c op with
      | Ok c' =>
          match op with
          | OpCheck _ => from_option stored_by [] (response c')
          | _ => []
          end ++ stores ops' c'
      | Panic _ => []
      end
  end.

(** the value written last for [name] *)
Fixpoint latest (name : string) (log : list (string * string))
  : option string :=
  match log with
  | [] => None
  | (n, v) :: log' =>
      match latest name log' with
      | Some v' => Some v'
      | None => if decide (n = name) then Some v else None
      end
  end.

(** the names that the test [ind > 0] lets into the jar *)
Definition names_ok (jar : gmap string string) : Prop :=
  ∀ name, is_Some (jar !! name) → name ≠ "" ∧ ¬ contains name "=".

Definition is_Check (op : Op) : bool :=
  match op with OpCheck _ => true | _ => false end.

(** the calls that compare the response or the jar with an expectation *)
Definition is_assertion (op : Op) : bool :=
  match op with
  | OpHasHeader _ _ | OpHasCookie _ _ | OpHasStatus _ | OpHasJson _ _
  | OpHasXml _ _ | OpHasBody _ | OpHasString _ => true
  | _ => false
  end.

(** the calls that only write to the request *)
Definition is_builder (op : Op) : bool :=
  match op with
  | OpWithHeader _ _ | OpWithCookie _ _ | OpWithBody _ | OpWithString _ => true
  | _ => false
  end.

(** the Cookie header that lists [entries] *)
Definition cookie_string (entries : list (string * string)) : string :=
  foldr (λ entry str, Sprintf_cookie entry +:+ str) "" entries.
End Jar.

(** ** A sample library and sample handlers *)

Module Sample.
Definition is_lower (a : ascii) : bool :=
  (97 <=? nat_of_ascii a)%nat && (nat_of_ascii a <=? 122)%nat.
Definition is_upper (a : ascii) : bool :=
  (65 <=? nat_of_ascii a)%nat && (nat_of_ascii a <=? 90)%nat.
Definition is_digit (a : ascii) : bool :=
  (48 <=? nat_of_ascii a)%nat && (nat_of_ascii a <=? 57)%nat.
Definition upper (a : ascii) : ascii :=
  if is_lower a then ascii_of_nat (nat_of_ascii a - 32) else a.
Definition lower (a : ascii) : ascii :=
  if is_upper a then ascii_of_nat (nat_of_ascii a + 32) else a.

Fixpoint map_string (f : ascii → ascii) (s : string) : string :=
  match s with
  | EmptyString => EmptyString
  | String a s' => String (f a) (map_string f s')
  end.

Fixpoint forallb_string (f : ascii → bool) (s : string) : bool :=
  match s with
  | EmptyString => true
  | String a s' => f a && forallb_string f s'
  end.

Fixpoint filter_string (f : ascii → bool) (s : string) : string :=
  match s with
  | EmptyString => EmptyString
  | String a s' =>
      if f a then String a (filter_string f s') else filter_string f s'
  end.

(** a byte of an HTTP token *)
Definition validHeaderFieldByte (a : ascii) : bool :=
  is_lower a || is_upper a || is_digit a
  || bool_decide (a ∈ String.list_ascii_of_string "!#$%&'*+-.^_`|~").

(** upper case at the start and after a hyphen, lower case elsewhere *)
Fixpoint canonical (up : bool) (s : string) : string :=
  match s with
  | EmptyString => EmptyString
  | String a s' =>
      let a' := if up then upper a else lower a in
      String a' (canonical (bool_decide (a' = "-"%char)) s')
  end.

Definition canonical_key (s : string) : string :=
  if forallb_string validHeaderFieldByte s then canonical true s else s.

Definition sanitize_name (n : string) : string :=
  map_string (λ a, if bool_decide (a = "010"%char ∨ a = "013"%char)
                   then "-"%char else a) n.

Definition validCookieValueByte (a : ascii) : bool :=
  (32 <=? nat_of_ascii a)%nat && (nat_of_ascii a <? 127)%nat
  && negb (bool_decide (a ∈ [ascii_of_nat 34; ";"%char; ascii_of_nat 92])).

Definition sanitize_value (v : string) : string :=
  let v := filter_string validCookieValueByte v in
  if negb (forallb_string (λ a, negb (bool_decide (a ∈ [" "%char; ","%char]))) v)
  then String (ascii_of_nat 34) (v +:+ String (ascii_of_nat 34) "")
  else v.

Inductive GoValue : Type :=
| VNil
| VBool (b : bool)
| VChan.

#[export] Instance lib : GoLib := {|
  Value := GoValue;
  strings_ToUpper := map_string upper;
  NewRequest_error method url :=
    if negb (forallb_string validHeaderFieldByte method)
    then Some "net/http: invalid method"
    else if String.prefix ":" url then Some "missing protocol scheme"
    else None;
  CanonicalMIMEHeaderKey := canonical_key;
  sanitizeCookieName := sanitize_name;
  sanitizeCookieValue := sanitize_value
|}.

Definition json_Marshal : Marshal := λ v,
  match v with
  | VNil => (String.list_byte_of_string "null", None)
  | VBool true => (String.list_byte_of_string "true", None)
  | VBool false => (String.list_byte_of_string "false", None)
  | VChan => ([], Some "json: unsupported type: chan int")
  end.

(** A handler that answers from a script: each call returns the next
    recorder of the list and leaves the request as it is. *)
#[export] Instance scripted : Handler (list ResponseRecorder) :=
  λ script _ req,
    match script with
    | [] => ([], NewRecorder, req)
    | recorder :: script' => (script', recorder, req)
    end.

(** A handler that reads the body of the request and writes it to the
    response. *)
Inductive Echo : Type := echo.

#[export] Instance echo_handler : Handler Echo :=
  λ _ recorder req,
    match Request.Body req with
    | Some b =>
        (echo,
         {| Code := Code recorder; HeaderMap := HeaderMap recorder;
            RecBody := RecBody recorder ++ buf b |},
         {| Request.Method := Request.Method req;
            Request.URL := Request.URL req;
            Request.Header := Request.Header req;
            Request.Body := Some {| buf := [] |} |})
    | None => (echo, recorder, req)
    end.

(** a recorder that issues the Set-Cookie lines [lines] *)
Definition set_cookies_recorder (lines : list string) : ResponseRecorder :=
  {| Code := 200; HeaderMap := Some {[ "Set-Cookie" := lines ]};
     RecBody := [] |}.

(** status 200, header [X-Test: ok], body [pong] *)
Definition ping_recorder : ResponseRecorder :=
  {| Code := 200; HeaderMap := Some {[ "X-Test" := ["ok"] ]};
     RecBody := String.list_byte_of_string "pong" |}.

(** a new Checker on a scripted handler, and the same after
    [Test("get", "/ping")] *)
Definition fresh (script : list ResponseRecorder)
  : Checker (list ResponseRecorder) :=
  New [] script.

Definition ping_request : Request.t :=
  {| Request.Method := "GET"; Request.URL := "/ping";
     Request.Header := Some ∅; Request.Body := None |}.

Definition targeted (script : list ResponseRecorder)
  : Checker (list ResponseRecorder) :=
  {| t := []; handler := script; request := Some ping_request;
     response := None; cookies := ∅ |}.
End Sample.

(** * Properties *)

(** ** Strings *)

Lemma append_cons (a : ascii) (s1 s2 : string) :
  String a s1 +:+ s2 = String a (s1 +:+ s2).
Proof. done. Qed.

Lemma append_nil_r (s : string) : s +:+ "" = s.
Proof. induction s as [|a s IH]; [done|]. by rewrite append_cons, IH. Qed.

Lemma append_assoc (s1 s2 s3 : string) : (s1 +:+ s2) +:+ s3 = s1 +:+ s2 +:+ s3.
Proof. induction s1 as [|a s1 IH]; [done|]. by rewrite !append_cons, IH. Qed.

Lemma length_append (s1 s2 : string) :
  String.length (s1 +:+ s2) = (String.length s1 + String.length s2)%nat.
Proof.
  induction s1 as [|a s1 IH]; [done|]. rewrite append_cons. cbn. by rewrite IH.
Qed.

Lemma prefix_nil (s : string) : String.prefix "" s = true.
Proof. by destruct s. Qed.

Lemma contains_refl (s : string) : contains s s.
Proof. exists "", "". by rewrite append_nil_r. Qed.

Lemma contains_append_l (s1 s2 sub : string) :
  contains s2 sub → contains (s1 +:+ s2) sub.
Proof.
  intros (pre & post & ->). exists (s1 +:+ pre), post.
  by rewrite append_assoc.
Qed.

Lemma contains_append_r (s1 s2 sub : string) :
  contains s1 sub → contains (s1 +:+ s2) sub.
Proof.
  intros (pre & post & ->). exists pre, (post +:+ s2).
  by rewrite !append_assoc.
Qed.

Lemma not_contains_nil (sub : string) : sub ≠ "" → ¬ contains "" sub.
Proof.
  intros Hsub (pre & post & Heq). destruct pre; [|done].
  destruct sub; [done|]. discriminate Heq.
Qed.

Lemma contains_cons (a : ascii) (s : string) :
  contains (String a s) "=" ↔ a = "="%char ∨ contains s "=".
Proof.
  split.
  - intros (pre & post & Heq). destruct pre as [|b pre].
    + left. by injection Heq.
    + right. injection Heq as _ ->. by exists pre, post.
  - intros [->|(pre & post & ->)].
    + by exists "", s.
    + by exists (String a pre), post.
Qed.

Lemma strings_Index_spec (str : string) : Index_spec str (strings_Index str "=").
Proof.
  induction str as [|a s IH].
  - apply Index_none, not_contains_nil. done.
  - cbn [strings_Index String.prefix]. destruct (ascii_dec "=" a) as [<-|Hne].
    + rewrite prefix_nil. apply (Index_found _ "" s); [done|].
      by apply not_contains_nil.
    + destruct IH as [Hno|pre post -> Hpre].
      * change (-1 <? 0) with true. cbn. apply Index_none.
        rewrite contains_cons. by intros [->|].
      * assert ((len pre <? 0) = false) as ->
          by (apply Z.ltb_ge; unfold len; lia).
        replace (len pre + 1) with (len (String a pre))
          by (unfold len; cbn [String.length]; lia).
        apply (Index_found _ (String a pre) post); [done|].
        rewrite contains_cons. by intros [->|].
Qed.

Lemma strings_Index_none (str : string) :
  strings_Index str "=" = -1 ↔ ¬ contains str "=".
Proof.
  destruct (strings_Index_spec str) as [Hno|pre post -> Hpre].
  - done.
  - split; [unfold len; lia|]. intros []. apply contains_append_l, contains_append_r.
    apply contains_refl.
Qed.

Lemma strings_Index_found (pre post : string) :
  ¬ contains pre "=" → strings_Index (pre +:+ "=" +:+ post) "=" = len pre.
Proof.
  intros Hpre. induction pre as [|a pre IH].
  - change ("" +:+ "=" +:+ post) with (String "=" post).
    cbn [strings_Index String.prefix].
    destruct (ascii_dec "=" "=") as [_|[]]; [|done]. by rewrite prefix_nil.
  - rewrite contains_cons in Hpre. rewrite append_cons.
    cbn [strings_Index String.prefix].
    destruct (ascii_dec "=" a) as [<-|_]; [by destruct Hpre; left|].
    rewrite IH by (intros ?; apply Hpre; by right).
    assert ((len pre <? 0) = false) as -> by (apply Z.ltb_ge; unfold len; lia).
    unfold len; cbn [String.length]; lia.
Qed.

Lemma substring_all (s : string) : String.substring 0 (String.length s) s = s.
Proof. induction s as [|a s IH]; [done|]. cbn. by rewrite IH. Qed.

Lemma substring_prefix (pre rest : string) :
  String.substring 0 (String.length pre) (pre +:+ rest) = pre.
Proof.
  induction pre as [|a pre IH]; [by destruct rest|].
  rewrite append_cons. cbn. by rewrite IH.
Qed.

Lemma substring_skip (pre rest : string) (m : nat) :
  String.substring (String.length pre) m (pre +:+ rest) = String.substring 0 m rest.
Proof.
  induction pre as [|a pre IH]; [done|]. rewrite append_cons. cbn. by rewrite IH.
Qed.

Lemma cookie_pair_found (pre post : string) :
  ¬ contains pre "=" → cookie_pair (pre +:+ "=" +:+ post) = (pre, post).
Proof.
  intros Hpre. unfold cookie_pair.
  rewrite strings_Index_found by done. unfold len. rewrite Nat2Z.id.
  rewrite substring_prefix. f_equal.
  replace (String.length pre + 1)%nat
    with (String.length (pre +:+ "=")) by (rewrite length_append; done).
  rewrite <- append_assoc, substring_skip.
  rewrite !length_append.
  replace (_ + _ - _)%nat with (String.length post) by lia.
  apply substring_all.
Qed.

(** ** Reading a body *)

Lemma ReadAll_loop_all (fuel : nat) (r : ReadCloser) (b : list byte) :
  (length (rd r) < fuel)%nat →
  ReadAll_loop fuel r b = (b ++ rd r, None, {| rd := [] |}).
Proof.
  revert r b. induction fuel as [|fuel IH]; intros [l] b Hlt; [cbn in Hlt; lia|].
  cbn [rd] in Hlt. destruct l as [|x l].
  - cbn. by rewrite app_nil_r.
  - cbn [ReadAll_loop]. unfold ReadCloser_Read, Buffer_Read. cbn [rd].
    rewrite IH.
    + cbn [rd]. by rewrite <- app_assoc, take_drop.
    + cbn [rd]. rewrite length_drop.
      change (length (x :: l)) with (S (length l)) in *. lia.
Qed.

(** [ioutil.ReadAll] returns what is left of the body, without an error,
    and leaves the body empty. *)
Lemma ioutil_ReadAll_all (r : ReadCloser) :
  ioutil_ReadAll r = (rd r, None, {| rd := [] |}).
Proof. unfold ioutil_ReadAll. by rewrite ReadAll_loop_all by lia. Qed.

Lemma slice_prefix (pre rest : string) :
  slice (pre +:+ rest) 0 (len pre) = Ok pre.
Proof.
  unfold slice, len. rewrite length_append.
  assert (Hc : (0 <=? 0) && (0 <=? Z.of_nat (String.length pre))
    && (Z.of_nat (String.length pre)
        <=? Z.of_nat (String.length pre + String.length rest)) = true)
    by (rewrite !andb_true_iff, !Z.leb_le; lia).
  rewrite Hc, Z.sub_0_r, Nat2Z.id. change (Z.to_nat 0) with 0%nat.
  by rewrite substring_prefix.
Qed.

Lemma slice_suffix (pre post : string) :
  slice (pre +:+ "=" +:+ post) (len pre + 1) (len (pre +:+ "=" +:+ post))
  = Ok post.
Proof.
  unfold slice. set (n := len (pre +:+ "=" +:+ post)).
  assert (Hn : n = len pre + 1 + len post).
  { unfold n, len. rewrite !length_append. cbn [String.length]. lia. }
  assert (Hc : (0 <=? len pre + 1) && (len pre + 1 <=? n) && (n <=? n) = true)
    by (rewrite !andb_true_iff, !Z.leb_le; unfold len in *; lia).
  rewrite Hc. f_equal.
  replace (Z.to_nat (len pre + 1)) with (String.length (pre +:+ "="))
    by (rewrite length_append; unfold len; cbn [String.length]; lia).
  replace (Z.to_nat (n - (len pre + 1))) with (String.length post)
    by (unfold len in *; lia).
  rewrite <- append_assoc, substring_skip. apply substring_all.
Qed.

(** ** The cookie loop *)

Section CheckerFacts.
Context {lib : GoLib} {H : Type} {serve : Handler H}.
Implicit Types (c : Checker H) (jar : gmap string string).

Lemma handleCookies_body_missing jar (str : string) :
  ¬ contains str "=" →
  handleCookies_body jar str = Panic "did not find = in cookie string".
Proof.
  intros Hno. unfold handleCookies_body.
  apply strings_Index_none in Hno. by rewrite Hno.
Qed.

Lemma handleCookies_body_leading jar (post : string) :
  handleCookies_body jar ("=" +:+ post) = Panic "did not find = in cookie string".
Proof.
  unfold handleCookies_body.
  pose proof (strings_Index_found "" post) as Hind.
  change ("" +:+ "=" +:+ post) with ("=" +:+ post) in Hind.
  rewrite Hind by (by apply not_contains_nil). done.
Qed.

Lemma handleCookies_body_found jar (pre post : string) :
  pre ≠ "" → ¬ contains pre "=" →
  handleCookies_body jar (pre +:+ "=" +:+ post) = Ok (<[pre := post]> jar).
Proof.
  intros Hne Hpre. unfold handleCookies_body.
  rewrite strings_Index_found by done.
  assert ((len pre >? 0) = true) as ->
    by (apply Z.gtb_lt; destruct pre; [done|unfold len; cbn [String.length]; lia]).
  by rewrite slice_prefix, slice_suffix.
Qed.

Lemma handleCookies_body_eq jar (str : string) :
  handleCookies_body jar str
  = if storable str
    then Ok (<[(cookie_pair str).1 := (cookie_pair str).2]> jar)
    else Panic "did not find = in cookie string".
Proof.
  unfold storable. destruct (strings_Index_spec str) as [Hno|pre post -> Hpre].
  - by rewrite handleCookies_body_missing.
  - destruct (decide (pre = "")) as [->|Hne].
    + apply handleCookies_body_leading.
    + rewrite handleCookies_body_found, cookie_pair_found by done.
      assert ((len pre >? 0) = true) as ->; [|done].
      apply Z.gtb_lt. destruct pre; [done|]. unfold len; cbn [String.length]. lia.
Qed.

Lemma for_range_cookies jar (header : list string) :
  for_range handleCookies_body jar header
  = if forallb storable header
    then Ok (write_all jar (cookie_pair <$> header))
    else Panic "did not find = in cookie string".
Proof.
  revert jar. induction header as [|str header IH]; intros jar; [done|].
  cbn [for_range forallb]. rewrite handleCookies_body_eq.
  destruct (storable str); [|done]. cbn [mbind Result_bind andb]. by rewrite IH.
Qed.

Lemma set_cookies_same c : set_cookies c (cookies c) = c.
Proof. by destruct c. Qed.

Lemma handleCookies_eq (r : Response.t) c :
  handleCookies r c
  = if forallb storable (set_cookie_lines r)
    then Ok (set_cookies c (write_all (cookies c) (stored_by r)))
    else Panic "did not find = in cookie string".
Proof.
  unfold handleCookies, stored_by, set_cookie_lines.
  destruct (Response.Header r ≫= _) as [header|]; cbn [default].
  - rewrite for_range_cookies. cbn. by destruct (forallb storable header).
  - cbn. by rewrite set_cookies_same.
Qed.

(** [Check] once the request has gone out. *)
Lemma Check_eq (range : MapRange) c :
  Check range c
  = out ← outgoing range c;
    let resp := (dispatch c out).2 in
    if forallb storable (set_cookie_lines resp)
    then Ok {| t := t c; handler := (dispatch c out).1.1;
               request := Some (dispatch c out).1.2;
               response := Some resp;
               cookies := write_all (cookies c) (stored_by resp) |}
    else Panic "did not find = in cookie string".
Proof.
  unfold Check. destruct (outgoing range c) as [out|msg]; [|done].
  cbn [mbind Result_bind]. destruct (dispatch c out) as [[h req] resp].
  rewrite handleCookies_eq. cbn [fst snd].
  by destruct (forallb storable (set_cookie_lines resp)).
Qed.

(** ** The Cookie header *)

Lemma generateCookieString_eq (range : MapRange) c :
  generateCookieString range c = cookie_string (range (cookies c)).
Proof.
  unfold generateCookieString, cookie_string.
  enough (∀ l acc, foldl (λ str entry, str +:+ Sprintf_cookie entry) acc l
    = acc +:+ foldr (λ entry str, Sprintf_cookie entry +:+ str) "" l) as Hgen
    by apply (Hgen _ "").
  induction l as [|e l IH]; intros acc; cbn [foldl foldr].
  - by rewrite append_nil_r.
  - by rewrite IH, append_assoc.
Qed.

Lemma cookie_string_contains (entries : list (string * string))
  (entry : string * string) :
  entry ∈ entries → contains (cookie_string entries) (Sprintf_cookie entry).
Proof.
  induction 1 as [e l|e e' l _ IH]; cbn [cookie_string foldr].
  - apply contains_append_r, contains_refl.
  - by apply contains_append_l.
Qed.

Lemma Header_Get_Set (hdr : gmap string (list string)) (key value : string) :
  Header_Get (Some (<[CanonicalMIMEHeaderKey key := [value]]> hdr)) key = value.
Proof. unfold Header_Get. cbn. by rewrite lookup_insert_eq. Qed.

Lemma outgoing_eq (range : MapRange) c (req : Request.t)
  (hdr : gmap string (list string)) :
  request c = Some req → Request.Header req = Some hdr →
  outgoing range c
  = Ok (Request_set_Header req
          (Some (<[CanonicalMIMEHeaderKey "Cookie" :=
                     [cookie_string (range (cookies c))]]> hdr))).
Proof.
  intros Hreq Hhdr. unfold outgoing, Request_Header_Set, Header_Set.
  rewrite Hreq. cbn [deref mbind Result_bind]. rewrite Hhdr.
  cbn [mbind Result_bind]. by rewrite generateCookieString_eq.
Qed.

(** C3: with a request whose header map is allocated, [Check] hands the
    handler the request whose Cookie header is exactly the concatenation of
    one [name=value;] per entry of the jar, each pair followed by its [;],
    in the order of the map walk; this is the empty string for the empty
    jar, and the value replaces whatever the Cookie header held. *)
Theorem Check_cookie_header (range : MapRange) c (req : Request.t)
  (hdr : gmap string (list string)) :
  valid_range range → request c = Some req → Request.Header req = Some hdr →
  ∃ (out : Request.t) (entries : list (string * string)),
    outgoing range c = Ok out
    ∧ (∀ c', Check range c = Ok c' →
         handler c' = (dispatch c out).1.1
         ∧ request c' = Some (dispatch c out).1.2
         ∧ response c' = Some (dispatch c out).2)
    ∧ entries ≡ₚ map_to_list (cookies c)
    ∧ Request.Header out
      = Some (<[CanonicalMIMEHeaderKey "Cookie" := [cookie_string entries]]> hdr)
    ∧ Header_Get (Request.Header out) "Cookie" = cookie_string entries
    ∧ (cookies c = ∅ → Header_Get (Request.Header out) "Cookie" = "")
    ∧ Request.Method out = Request.Method req
    ∧ Request.URL out = Request.URL req
    ∧ Request.Body out = Request.Body req.
Proof.
  intros Hrange Hreq Hhdr.
  eexists _, (range (cookies c)). split; [by apply outgoing_eq|].
  split.
  { intros c'. rewrite Check_eq, (outgoing_eq _ _ req hdr) by done.
    cbn [mbind Result_bind]. destruct (forallb _ _); [|done].
    by intros [= <-]. }
  split; [apply Hrange|]. split; [done|]. cbn [Request_set_Header Request.Header].
  rewrite Header_Get_Set. split; [done|]. split; [|done].
  intros Hempty. specialize (Hrange (cookies c)).
  rewrite Hempty, map_to_list_empty in Hrange.
  apply Permutation_nil_r in Hrange. by rewrite Hempty, Hrange.
Qed.

(** C10: on a Checker that [New] has just made the request is nil, and
    WithHeader, WithCookie, WithBody, WithString, WithJson, WithXml and
    Check all panic on the nil request; New, Test and TestRequest do not
    panic. *)
Theorem fresh_Checker_has_no_request (t0 : testing_T) (h : H) :
  request (New t0 h) = None
  ∧ (∀ key value, WithHeader key value (New t0 h) = Panic nil_dereference)
  ∧ (∀ key value, WithCookie key value (New t0 h) = Panic nil_dereference)
  ∧ (∀ body, WithBody body (New t0 h) = Panic nil_dereference)
  ∧ (∀ body, WithString body (New t0 h) = Panic nil_dereference)
  ∧ (∀ m value, WithJson m value (New t0 h) = Panic nil_dereference)
  ∧ (∀ m value, WithXml m value (New t0 h) = Panic nil_dereference)
  ∧ (∀ range, Check range (New t0 h) = Panic nil_dereference)
  ∧ (∀ request, panics (TestRequest request (New t0 h)) = false)
  ∧ (∀ method path, panics (Test method path (New t0 h)) = false).
Proof.
  repeat split; try done.
  - intros m value. unfold WithJson. by destruct (m value).
  - intros m value. unfold WithXml. by destruct (m value).
  - intros method path. unfold Test. by destruct (http_NewRequest _ _).
Qed.

(** C8, amended: [TestRequest] never panics; it records the failure
    "Request nil" exactly when the request it is given is nil, and in both
    cases the request of the Checker becomes the one it is given, nil
    included; nothing else changes. *)
Theorem TestRequest_assigns (request' : option Request.t) c :
  ∃ c', TestRequest request' c = Ok c'
    ∧ request c' = request'
    ∧ t c' = match request' with
             | Some _ => t c
             | None => t c ++ ["Request nil"]
             end
    ∧ handler c' = handler c ∧ response c' = response c
    ∧ cookies c' = cookies c.
Proof. eexists. split; [done|]. by destruct request'. Qed.

(** C9: after an execution, [HasHeader key expectedValue] passes exactly
    when [expectedValue] equals the first value the response header holds
    under the canonical form of [key], and when the header holds nothing
    there it passes exactly when [expectedValue] is the empty string; a
    mismatch records one failure and nothing else changes. *)
Theorem HasHeader_compares (key expectedValue : string) c (resp : Response.t) :
  response c = Some resp →
  ∃ c', HasHeader key expectedValue c = Ok c'
    ∧ (∀ v vs,
         Response.Header resp ≫= (.!! CanonicalMIMEHeaderKey key) = Some (v :: vs) →
         (t c' = t c ↔ expectedValue = v))
    ∧ (Response.Header resp ≫= (.!! CanonicalMIMEHeaderKey key) = None →
       (t c' = t c ↔ expectedValue = "") ∧ (expectedValue = "" → t c' = t c))
    ∧ (t c' = t c ∨ t c' = t c ++ [""])
    ∧ handler c' = handler c ∧ request c' = request c
    ∧ response c' = response c ∧ cookies c' = cookies c.
Proof.
  intros Hresp. unfold HasHeader. rewrite Hresp. cbn [deref mbind Result_bind].
  eexists. split; [done|]. cbn [t set_t handler request response cookies].
  unfold assert_Exactly, assert_that, Header_Get.
  assert (Hgrow : ∀ l : testing_T, l ++ [""] = l ↔ False).
  { intros l. split; [|done]. intros Heq%(f_equal length).
    rewrite length_app in Heq. cbn in Heq. lia. }
  split; [|split; [|split; [|done]]].
  - intros v vs ->. case_bool_decide; [done|]. by rewrite Hgrow.
  - intros ->. split.
    + case_bool_decide; [done|]. by rewrite Hgrow.
    + intros ->. by rewrite bool_decide_eq_true_2.
  - case_bool_decide; [by left|by right].
Qed.

(** ** When the cookie loop panics *)

Lemma storable_iff (str : string) :
  storable str = true ↔ contains str "=" ∧ String.prefix "=" str = false.
Proof.
  unfold storable. destruct (strings_Index_spec str) as [Hno|pre post -> Hpre].
  - split; [done|]. by intros [? _].
  - destruct pre as [|a pre].
    + split; [done|]. intros [_ Hp].
      change ("" +:+ "=" +:+ post) with (String "=" post) in Hp.
      cbn [String.prefix] in Hp.
      destruct (ascii_dec "=" "=") as [_|[]]; [|done].
      by rewrite prefix_nil in Hp.
    + split; [intros _|intros _; apply Z.gtb_lt; unfold len; cbn [String.length]; lia].
      split; [apply contains_append_l, contains_append_r, contains_refl|].
      rewrite append_cons. cbn [String.prefix].
      destruct (ascii_dec "=" a) as [<-|]; [|done].
      destruct Hpre. apply contains_cons. by left.
Qed.

Lemma storable_missing (str : string) : ¬ contains str "=" → storable str = false.
Proof.
  intros Hno. destruct (storable str) eqn:Hs; [|done].
  by apply storable_iff in Hs as [? _].
Qed.

(** C1, amended: [Check] panics when the Checker has no request. With a
    request whose header map is allocated, it panics if some Set-Cookie
    value of the response has no [=], and it returns if every Set-Cookie
    value has a [=] and does not begin with it. *)
Theorem Check_aborts (range : MapRange) c :
  (request c = None → Check range c = Panic nil_dereference)
  ∧ (∀ (req : Request.t) (hdr : gmap string (list string)),
       request c = Some req → Request.Header req = Some hdr →
       ∃ out, outgoing range c = Ok out
         ∧ ((∃ str, str ∈ set_cookie_lines (dispatch c out).2
                    ∧ ¬ contains str "=") →
            Check range c = Panic "did not find = in cookie string")
         ∧ ((∀ str, str ∈ set_cookie_lines (dispatch c out).2 →
                    contains str "=" ∧ String.prefix "=" str = false) →
            ∃ c', Check range c = Ok c')).
Proof.
  split.
  - intros Hreq. unfold Check, outgoing. by rewrite Hreq.
  - intros req hdr Hreq Hhdr. eexists. split; [by apply outgoing_eq|].
    rewrite Check_eq, (outgoing_eq _ _ req hdr) by done.
    cbn [mbind Result_bind]. split.
    + intros (str & Hin & Hno).
      destruct (forallb _ _) eqn:Hall; [|done].
      rewrite forallb_forall in Hall.
      apply list_elem_of_In, Hall in Hin.
      by rewrite storable_missing in Hin.
    + intros Hall. destruct (forallb _ _) eqn:Hf; [by eexists|].
      assert (forallb storable
        (set_cookie_lines (dispatch c
           (Request_set_Header req
              (Some (<[CanonicalMIMEHeaderKey "Cookie" :=
                         [cookie_string (range (cookies c))]]> hdr)))).2) = true)
        as Ht; [|by rewrite Ht in Hf].
      apply forallb_forall. intros str Hin%list_elem_of_In.
      by apply storable_iff, Hall.
Qed.

(** ** Assertions and the stored response *)

Lemma grows_ne (l : testing_T) (msg : string) : l ++ [msg] = l ↔ False.
Proof.
  split; [|done]. intros Heq%(f_equal length).
  rewrite length_app in Heq. cbn in Heq. lia.
Qed.

Lemma ObjectsAreEqual_bytes_iff (expected actual : option (list byte)) :
  ObjectsAreEqual_bytes expected actual = true ↔ expected = actual.
Proof.
  destruct expected as [exp|], actual as [act|]; cbn; try done.
  rewrite bool_decide_eq_true. split; [by intros ->|by intros [= ->]].
Qed.

Lemma assert_Equal_bytes_passes (l : testing_T)
  (expected actual : option (list byte)) :
  assert_Equal_bytes l expected actual = l ↔ expected = actual.
Proof.
  unfold assert_Equal_bytes, assert_that.
  destruct (ObjectsAreEqual_bytes expected actual) eqn:Heq.
  - by apply ObjectsAreEqual_bytes_iff in Heq.
  - rewrite grows_ne. split; [done|]. intros Hsame%ObjectsAreEqual_bytes_iff.
    by rewrite Hsame in Heq.
Qed.

Lemma HasBody_eq (body : option (list byte)) c (resp : Response.t) :
  response c = Some resp →
  HasBody body c
  = Ok {| t := assert_Equal_bytes (t c) body (Some (rd (Response.Body resp)));
          handler := handler c; request := request c;
          response := Some (Response_set_Body resp {| rd := [] |});
          cookies := cookies c |}.
Proof.
  intros Hresp. unfold HasBody. rewrite Hresp. cbn [deref mbind Result_bind].
  by rewrite ioutil_ReadAll_all.
Qed.

Lemma HasJson_eq (m : Marshal) (value : Value) c (resp : Response.t) :
  response c = Some resp →
  HasJson m value c
  = Ok {| t := assert_Equal (assert_Nil (t c) (m value).2 "")
                 (String.string_of_list_byte (m value).1)
                 (String.string_of_list_byte (rd (Response.Body resp)));
          handler := handler c; request := request c;
          response := Some (Response_set_Body resp {| rd := [] |});
          cookies := cookies c |}.
Proof.
  intros Hresp. unfold HasJson. rewrite Hresp. cbn [deref mbind Result_bind].
  rewrite ioutil_ReadAll_all. by destruct (m value).
Qed.

Lemma HasXml_eq (m : Marshal) (value : Value) c (resp : Response.t) :
  response c = Some resp →
  HasXml m value c
  = Ok {| t := assert_Equal (assert_Nil (t c) (m value).2 "")
                 (String.string_of_list_byte (m value).1)
                 (String.string_of_list_byte (rd (Response.Body resp)));
          handler := handler c; request := request c;
          response := Some (Response_set_Body resp {| rd := [] |});
          cookies := cookies c |}.
Proof.
  intros Hresp. unfold HasXml. rewrite Hresp. cbn [deref mbind Result_bind].
  rewrite ioutil_ReadAll_all. by destruct (m value).
Qed.

(** What [WithCookie] adds does not reach the handler: the Cookie header
    that goes out is the one of the jar. *)
Lemma WithCookie_then_outgoing (key value : string) (range : MapRange) c c1
  (out : Request.t) :
  WithCookie key value c = Ok c1 → outgoing range c1 = Ok out →
  Header_Get (Request.Header out) "Cookie" = cookie_string (range (cookies c)).
Proof.
  unfold WithCookie. destruct (request c) as [req|]; [|done].
  cbn [deref mbind Result_bind].
  destruct (Request_AddCookie req key value) as [req1|] eqn:Hadd; [|done].
  intros [= <-]. cbn [mbind Result_bind].
  assert (∃ hdr1, Request.Header req1 = Some hdr1) as [hdr1 Hhdr1].
  { unfold Request_AddCookie, Request_Header_Set, Header_Set in Hadd.
    destruct (Request.Header req); [|by case_decide].
    case_decide; injection Hadd as <-; by eexists. }
  rewrite (outgoing_eq range _ req1 hdr1) by done. intros [= <-].
  cbn [Request_set_Header Request.Header set_request cookies].
  apply Header_Get_Set.
Qed.

(** C5, amended: HasHeader, HasStatus and HasCookie leave the stored
    response as it is. HasBody, HasString, HasJson and HasXml leave its
    status and its headers as they are and read its body to the end: after
    any of them the stored body is empty. HasBody passes exactly when its
    argument is not nil and equals the unread body, so a second HasBody
    with the same argument right after the first passes exactly when the
    argument is the empty slice that is not nil. *)
Theorem assertions_and_the_response c (resp : Response.t) :
  response c = Some resp →
  (∀ key value, ∃ c', HasHeader key value c = Ok c' ∧ response c' = Some resp)
  ∧ (∀ status, ∃ c', HasStatus status c = Ok c' ∧ response c' = Some resp)
  ∧ (∀ key value, ∃ c', HasCookie key value c = Ok c' ∧ response c' = Some resp)
  ∧ (∀ body, ∃ c', HasBody body c = Ok c'
       ∧ response c' = Some (Response_set_Body resp {| rd := [] |})
       ∧ (t c' = t c ↔ body = Some (rd (Response.Body resp))))
  ∧ (∀ body, ∃ c', HasString body c = Ok c'
       ∧ response c' = Some (Response_set_Body resp {| rd := [] |}))
  ∧ (∀ m value, ∃ c', HasJson m value c = Ok c'
       ∧ response c' = Some (Response_set_Body resp {| rd := [] |}))
  ∧ (∀ m value, ∃ c', HasXml m value c = Ok c'
       ∧ response c' = Some (Response_set_Body resp {| rd := [] |}))
  ∧ (∀ body, ∃ c' c'', HasBody body c = Ok c' ∧ HasBody body c' = Ok c''
       ∧ (t c'' = t c' ↔ body = Some [])).
Proof.
  intros Hresp. repeat apply conj.
  - intros key value. unfold HasHeader. rewrite Hresp. by eexists.
  - intros status. unfold HasStatus. rewrite Hresp. by eexists.
  - intros key value. unfold HasCookie. by eexists.
  - intros body. rewrite (HasBody_eq _ _ resp) by done. eexists.
    split; [done|]. split; [done|]. cbn [t]. apply assert_Equal_bytes_passes.
  - intros body. unfold HasString. rewrite (HasBody_eq _ _ resp) by done.
    by eexists.
  - intros m value. rewrite (HasJson_eq _ _ _ resp) by done. by eexists.
  - intros m value. rewrite (HasXml_eq _ _ _ resp) by done. by eexists.
  - intros body. rewrite (HasBody_eq _ _ resp) by done. eexists _, _.
    split; [done|]. split; [by apply HasBody_eq|].
    cbn [t Response_set_Body Response.Body rd].
    apply assert_Equal_bytes_passes.
Qed.

(** ** JSON through an echoing handler *)

Lemma dispatch_eq c (req : Request.t) :
  dispatch c req
  = ((ServeHTTP (handler c) NewRecorder req).1.1,
     (ServeHTTP (handler c) NewRecorder req).2,
     {| Response.StatusCode := Code (ServeHTTP (handler c) NewRecorder req).1.2;
        Response.Body :=
          NewReadCloser (RecBody (ServeHTTP (handler c) NewRecorder req).1.2);
        Response.Header :=
          Recorder_Header (ServeHTTP (handler c) NewRecorder req).1.2 |}).
Proof. unfold dispatch. by destruct (ServeHTTP _ _ _) as [[h recorder] req']. Qed.

(** C7: when both calls of [json.Marshal] on [value] succeed with the same
    encoding, WithJson, then Check against a handler that echoes the body
    of the request, then HasJson return and record no failure. *)
Theorem WithJson_HasJson_roundtrip (m1 m2 : Marshal) (value : Value)
  (encoded : list byte) (range : MapRange) c (req : Request.t)
  (hdr : gmap string (list string)) :
  echoes → m1 value = (encoded, None) → m2 value = (encoded, None) →
  request c = Some req → Request.Header req = Some hdr →
  ∃ c1 c2 c3, WithJson m1 value c = Ok c1 ∧ Check range c1 = Ok c2
    ∧ HasJson m2 value c2 = Ok c3 ∧ t c3 = t c.
Proof.
  intros Hecho Hm1 Hm2 Hreq Hhdr.
  unfold WithJson, WithBody. rewrite Hm1. cbn [t set_t request].
  rewrite Hreq. cbn [deref mbind Result_bind].
  eexists _, _, _. split; [reflexivity|].
  match goal with |- context [Check range ?x] => set (c1 := x) end.
  rewrite Check_eq.
  rewrite (outgoing_eq range c1
    (Request_set_Body req (Some (newClosingBuffer encoded))) hdr) by done.
  cbn [mbind Result_bind].
  set (out := Request_set_Header _ _).
  destruct (Hecho (handler c) NewRecorder out (newClosingBuffer encoded) eq_refl)
    as [Hbody Hcookie].
  assert (set_cookie_lines (dispatch c1 out).2 = []) as Hlines.
  { rewrite dispatch_eq. unfold set_cookie_lines.
    cbn [snd Response.Header]. change (handler c1) with (handler c).
    by rewrite Hcookie. }
  rewrite Hlines. cbn [forallb]. split; [reflexivity|].
  erewrite HasJson_eq by done. split; [reflexivity|].
  rewrite Hm2, dispatch_eq.
  cbn [t fst snd Response.Body NewReadCloser rd].
  subst out c1. cbn [handler set_request set_t cookies] in Hbody |- *.
  rewrite Hbody. cbn [RecBody NewRecorder app newClosingBuffer buf].
  unfold assert_Equal, assert_Nil, assert_that.
  by rewrite bool_decide_eq_true_2.
Qed.

(** ** The jar over a sequence of calls *)

Lemma write_all_app jar (l1 l2 : list (string * string)) :
  write_all jar (l1 ++ l2) = write_all (write_all jar l1) l2.
Proof. apply foldl_app. Qed.

Lemma write_all_lookup jar (log : list (string * string)) (name : string) :
  write_all jar log !! name
  = match latest name log with
    | Some v => Some v
    | None => jar !! name
    end.
Proof.
  revert jar. induction log as [|[n v] log IH]; intros jar; [done|].
  cbn [write_all foldl latest]. fold (write_all (<[n:=v]> jar) log).
  rewrite IH. destruct (latest name log); [done|].
  cbn [fst snd]. destruct (decide (n = name)) as [->|Hne].
  - by rewrite lookup_insert_eq.
  - by rewrite lookup_insert_ne.
Qed.

Lemma call_cookies c c' (op : Op) :
  call c op = Ok c' →
  cookies c'
  = write_all (cookies c)
      match op with
      | OpCheck _ => from_option stored_by [] (response c')
      | _ => []
      end.
Proof.
  destruct op; cbn [call write_all foldl].
  - by intros [= <-].
  - unfold Test. destruct (http_NewRequest _ _). by intros [= <-].
  - unfold WithHeader. destruct (request c) as [req|]; [|done]. cbn.
    destruct (Request_Header_Set _ _ _); [|done]. by intros [= <-].
  - unfold HasHeader. destruct (response c); [|done]. by intros [= <-].
  - by intros [= <-].
  - unfold WithCookie. destruct (request c) as [req|]; [|done]. cbn.
    destruct (Request_AddCookie _ _ _); [|done]. by intros [= <-].
  - unfold HasStatus. destruct (response c); [|done]. by intros [= <-].
  - unfold WithJson, WithBody. destruct (json_Marshal value). cbn.
    destruct (request c); [|done]. by intros [= <-].
  - destruct (response c) as [resp|] eqn:Hresp;
      [|by unfold HasJson; rewrite Hresp].
    rewrite (HasJson_eq _ _ _ resp) by done. by intros [= <-].
  - unfold WithXml, WithBody. destruct (xml_Marshal value). cbn.
    destruct (request c); [|done]. by intros [= <-].
  - destruct (response c) as [resp|] eqn:Hresp;
      [|by unfold HasXml; rewrite Hresp].
    rewrite (HasXml_eq _ _ _ resp) by done. by intros [= <-].
  - unfold WithBody. destruct (request c); [|done]. by intros [= <-].
  - destruct (response c) as [resp|] eqn:Hresp;
      [|by unfold HasBody; rewrite Hresp].
    rewrite (HasBody_eq _ _ resp) by done. by intros [= <-].
  - unfold WithString. destruct (request c); [|done]. by intros [= <-].
  - unfold HasString. destruct (response c) as [resp|] eqn:Hresp;
      [|by unfold HasBody; rewrite Hresp].
    rewrite (HasBody_eq _ _ resp) by done. by intros [= <-].
  - rewrite Check_eq. destruct (outgoing range c); [|done].
    cbn [mbind Result_bind]. destruct (forallb _ _); [|done]. by intros [= <-].
  - unfold Cb. destruct (cb (response c)); [|done]. by intros [= <-].
Qed.

Lemma run_cookies (ops : list Op) c c' :
  run ops c = Ok c' → cookies c' = write_all (cookies c) (stores ops c).
Proof.
  revert c. induction ops as [|op ops IH]; intros c; [by intros [= <-]|].
  unfold run. cbn [for_range stores].
  destruct (call c op) as [c1|] eqn:Hcall; [|done]. cbn [mbind Result_bind].
  intros Hrun%IH. by rewrite Hrun, write_all_app, <- (call_cookies c c1 op).
Qed.

(** C2: along any sequence of calls on a Checker no name leaves the jar, and
    the jar holds for each name the value written last for it (or the value
    it had at the start, when no execution wrote it); whenever the request
    can go out, the next [Check] sends an entry [name=value;] with that
    value in the Cookie header. *)
Theorem cookie_jar_persists (ops : list Op) c c' :
  run ops c = Ok c' →
  (∀ name, is_Some (cookies c !! name) → is_Some (cookies c' !! name))
  ∧ (∀ name value,
       match latest name (stores ops c) with
       | Some v => Some v
       | None => cookies c !! name
       end = Some value →
       cookies c' !! name = Some value
       ∧ ∀ (range : MapRange) (req : Request.t) (hdr : gmap string (list string)),
           valid_range range → request c' = Some req →
           Request.Header req = Some hdr →
           ∃ (out : Request.t) (entries : list (string * string)),
             outgoing range c' = Ok out
             ∧ entries ≡ₚ map_to_list (cookies c')
             ∧ (name, value) ∈ entries
             ∧ Header_Get (Request.Header out) "Cookie" = cookie_string entries
             ∧ contains (Header_Get (Request.Header out) "Cookie")
                 (name +:+ "=" +:+ value +:+ ";")).
Proof.
  intros Hrun%run_cookies.
  assert (Hlook : ∀ name, cookies c' !! name
    = match latest name (stores ops c) with
      | Some v => Some v
      | None => cookies c !! name
      end) by (intros name; by rewrite Hrun, write_all_lookup).
  split.
  - intros name [v Hv]. rewrite Hlook, Hv. by destruct (latest _ _).
  - intros name value Hlatest. rewrite <- Hlook in Hlatest. split; [done|].
    intros range req hdr Hrange Hreq Hhdr.
    eexists _, (range (cookies c')). split; [by apply outgoing_eq|].
    split; [apply Hrange|].
    assert ((name, value) ∈ range (cookies c')) as Hin
      by (rewrite (Hrange (cookies c')); by apply elem_of_map_to_list).
    split; [done|]. cbn [Request_set_Header Request.Header].
    rewrite Header_Get_Set. split; [done|].
    by apply (cookie_string_contains _ (name, value)).
Qed.
End CheckerFacts.

(** * More of the Checker *)

Section MoreFacts.
Context {lib : GoLib} {H : Type} {serve : Handler H}.
Implicit Types (c : Checker H) (jar : gmap string string).

Lemma failure_grows (l : testing_T) (msg : string) : l ++ [msg] ≠ l.
Proof.
  intros Heq%(f_equal length). rewrite length_app in Heq. cbn in Heq. lia.
Qed.

Lemma HasCookie_t (key expectedValue : string) c c' :
  HasCookie key expectedValue c = Ok c' →
  (t c' = t c ↔ cookies c !! key = Some expectedValue).
Proof.
  intros [= <-]. cbn [t set_t]. unfold assert_True, assert_that.
  destruct (cookies c !! key) as [value|] eqn:Hjar; cbn [default].
  - rewrite bool_decide_eq_true_2 by done. cbn [andb].
    case_bool_decide as Heq.
    + by rewrite Heq.
    + split; [by intros ?%failure_grows|]. intros [= ->]. by destruct Heq.
  - rewrite bool_decide_eq_false_2 by (by intros [? [=]]). cbn [andb].
    split; [by intros ?%failure_grows|done].
Qed.

(** X1: [HasCookie] never panics and touches nothing but the failures; it
    passes exactly when the jar holds [expectedValue] under [key], so it
    fails for a name the jar does not hold whatever the expectation is. *)
Theorem HasCookie_passes_iff (key expectedValue : string) c :
  ∃ c', HasCookie key expectedValue c = Ok c'
    ∧ (t c' = t c ↔ cookies c !! key = Some expectedValue)
    ∧ (t c' = t c ∨ t c' = t c ++ [""])
    ∧ handler c' = handler c ∧ request c' = request c
    ∧ response c' = response c ∧ cookies c' = cookies c.
Proof.
  eexists. split; [reflexivity|]. split; [by apply HasCookie_t|].
  split; [|done]. cbn [t set_t]. unfold assert_True, assert_that.
  destruct (_ && _); [by left|by right].
Qed.

(** X2: [Test] builds its request from the method and the path alone: what
    the Checker held as request before is dropped. When [http.NewRequest]
    accepts them, the request has the upper-cased method ([GET] for the
    empty one), the path, an empty header and no body, and no failure is
    recorded; when it does not, one failure is recorded, the request is
    nil and the next [Check] panics. *)
Theorem Test_builds_request (method path : string) c :
  ∃ c', Test method path c = Ok c'
    ∧ (∀ r, Test method path (set_request c r) = Ok c')
    ∧ handler c' = handler c ∧ response c' = response c
    ∧ cookies c' = cookies c
    ∧ match request c' with
      | Some req =>
          Request.Method req
          = (if decide (strings_ToUpper method = "") then "GET"
             else strings_ToUpper method)
          ∧ Request.URL req = path ∧ Request.Header req = Some ∅
          ∧ Request.Body req = None ∧ t c' = t c
          ∧ NewRequest_error (Request.Method req) path = None
      | None =>
          t c' = t c ++ ["Failed to make new request"]
          ∧ (∀ range, Check range c' = Panic nil_dereference)
          ∧ is_Some (NewRequest_error
                       (if decide (strings_ToUpper method = "") then "GET"
                        else strings_ToUpper method) path)
      end.
Proof.
  unfold Test, http_NewRequest.
  destruct (NewRequest_error _ path) as [err|] eqn:Herr;
    eexists; (split; [reflexivity|]); (split; [done|]);
    cbn [t set_t handler request response cookies set_request];
    by repeat split.
Qed.

(** X3: a header set by [WithHeader] is on the request that [Check] hands
    to the handler, unless its key is the Cookie key: then [Check] replaces
    the value by the string of the jar. *)
Theorem WithHeader_then_outgoing (key value : string) (range : MapRange) c
  (req : Request.t) (hdr : gmap string (list string)) :
  request c = Some req → Request.Header req = Some hdr →
  ∃ c1 out, WithHeader key value c = Ok c1
    ∧ outgoing range c1 = Ok out
    ∧ t c1 = t c ∧ response c1 = response c ∧ cookies c1 = cookies c
    ∧ (CanonicalMIMEHeaderKey key ≠ CanonicalMIMEHeaderKey "Cookie" →
       Header_Get (Request.Header out) key = value)
    ∧ (CanonicalMIMEHeaderKey key = CanonicalMIMEHeaderKey "Cookie" →
       Header_Get (Request.Header out) key = cookie_string (range (cookies c))).
Proof.
  intros Hreq Hhdr. unfold WithHeader, Request_Header_Set, Header_Set.
  rewrite Hreq. cbn [deref mbind Result_bind]. rewrite Hhdr.
  cbn [mbind Result_bind]. eexists _, _. split; [reflexivity|].
  split; [by apply outgoing_eq|]. split; [done|]. split; [done|].
  split; [done|]. cbn [Request_set_Header Request.Header set_request cookies].
  unfold Header_Get. cbn [mbind option_bind]. split.
  - intros Hne. by rewrite lookup_insert_ne, lookup_insert_eq.
  - intros ->. by rewrite lookup_insert_eq.
Qed.

(** X4: [WithHeader] overwrites: of two calls with one key the second
    alone counts, and the headers under other keys stay as they were. *)
Theorem WithHeader_overwrites (key value1 value2 : string) c
  (req : Request.t) (hdr : gmap string (list string)) :
  request c = Some req → Request.Header req = Some hdr →
  ∃ c1 c2 req2, WithHeader key value1 c = Ok c1
    ∧ WithHeader key value2 c1 = Ok c2
    ∧ WithHeader key value2 c = Ok c2
    ∧ request c2 = Some req2
    ∧ Header_Get (Request.Header req2) key = value2
    ∧ (∀ key', CanonicalMIMEHeaderKey key' ≠ CanonicalMIMEHeaderKey key →
         Header_Get (Request.Header req2) key' = Header_Get (Some hdr) key')
    ∧ Request.Body req2 = Request.Body req
    ∧ Request.Method req2 = Request.Method req
    ∧ Request.URL req2 = Request.URL req.
Proof.
  intros Hreq Hhdr. unfold WithHeader, Request_Header_Set, Header_Set.
  rewrite Hreq. cbn [deref mbind Result_bind]. rewrite Hhdr.
  cbn [mbind Result_bind deref request set_request Request_set_Header
       Request.Header].
  eexists _, _, _. split; [reflexivity|]. split; [reflexivity|].
  rewrite insert_insert_eq. split; [by destruct c|].
  split; [reflexivity|]. cbn [Request_set_Header Request.Header].
  split; [apply Header_Get_Set|]. split; [|done].
  intros key' Hne. unfold Header_Get. cbn [mbind option_bind].
  by rewrite lookup_insert_ne.
Qed.

(** X5: without a response every assertion on the response panics:
    HasHeader, HasStatus, HasBody, HasString, HasJson and HasXml; HasCookie,
    which reads the jar, does not. *)
Theorem assertions_need_response c :
  response c = None →
  (∀ key value, HasHeader key value c = Panic nil_dereference)
  ∧ (∀ status, HasStatus status c = Panic nil_dereference)
  ∧ (∀ body, HasBody body c = Panic nil_dereference)
  ∧ (∀ body, HasString body c = Panic nil_dereference)
  ∧ (∀ m value, HasJson m value c = Panic nil_dereference)
  ∧ (∀ m value, HasXml m value c = Panic nil_dereference)
  ∧ (∀ key value, panics (HasCookie key value c) = false).
Proof.
  intros Hresp.
  unfold HasHeader, HasStatus, HasString, HasBody, HasJson, HasXml.
  rewrite Hresp. by repeat split.
Qed.

(** X6: an execution records no failure of its own, and the assertions
    after it compare with what the handler left in the recorder:
    [HasStatus] passes exactly on the recorded code and [HasBody] exactly
    on the recorded body, given as a slice that is not nil. *)
Theorem Check_then_assertions (range : MapRange) c c' :
  Check range c = Ok c' →
  t c' = t c
  ∧ ∃ out, outgoing range c = Ok out
      ∧ (∀ status, ∃ c'', HasStatus status c' = Ok c''
           ∧ (t c'' = t c'
              ↔ status = Code (ServeHTTP (handler c) NewRecorder out).1.2))
      ∧ (∀ body, ∃ c'', HasBody body c' = Ok c''
           ∧ (t c'' = t c'
              ↔ body
                = Some (RecBody (ServeHTTP (handler c) NewRecorder out).1.2))).
Proof.
  rewrite Check_eq. destruct (outgoing range c) as [out|]; [|done].
  cbn [mbind Result_bind]. destruct (forallb _ _); [|done].
  intros [= <-]. split; [done|]. exists out. split; [done|].
  rewrite dispatch_eq. cbn [snd]. split.
  - intros status. unfold HasStatus. cbn [response deref mbind Result_bind].
    eexists. split; [reflexivity|]. cbn [t set_t Response.StatusCode].
    unfold assert_Exactly, assert_that. case_bool_decide; [done|].
    split; [by intros ?%failure_grows|done].
  - intros body. erewrite HasBody_eq by reflexivity.
    eexists. split; [reflexivity|].
    cbn [t Response.Body NewReadCloser rd].
    apply assert_Equal_bytes_passes.
Qed.

(** X7: [HasString] passes exactly when the unread body of the response,
    read as a string, is the expected text. *)
Theorem HasString_passes_iff (body : string) c (resp : Response.t) :
  response c = Some resp →
  ∃ c', HasString body c = Ok c'
    ∧ (t c' = t c
       ↔ String.string_of_list_byte (rd (Response.Body resp)) = body).
Proof.
  intros Hresp. unfold HasString. rewrite (HasBody_eq _ _ resp) by done.
  eexists. split; [reflexivity|]. cbn [t].
  rewrite assert_Equal_bytes_passes. split.
  - intros [= <-]. by rewrite String.string_of_list_byte_of_string.
  - intros <-. by rewrite String.list_byte_of_string_of_list_byte.
Qed.

(** X8: [HasJson] records no failure exactly when the call of the encoder
    succeeds and returns the unread body of the response, byte for byte; an
    encoder error is a failure of the assertion, not a panic. [HasXml] does
    the same with its encoder. *)
Theorem HasJson_passes_iff (m : Marshal) (value : Value) c (resp : Response.t) :
  response c = Some resp →
  ∃ c', HasJson m value c = Ok c' ∧ HasXml m value c = Ok c'
    ∧ (t c' = t c ↔ m value = (rd (Response.Body resp), None)).
Proof.
  intros Hresp.
  rewrite (HasJson_eq _ _ _ resp), (HasXml_eq _ _ _ resp) by done.
  eexists. split; [reflexivity|]. split; [reflexivity|]. cbn [t].
  destruct (m value) as [valueBytes err]. cbn [fst snd].
  unfold assert_Equal, assert_Nil, assert_that.
  assert (Hlen : ∀ (l : testing_T) (msg1 msg2 : string),
    (l ++ [msg1]) ++ [msg2] ≠ l).
  { intros l msg1 msg2 Heq%(f_equal length).
    rewrite !length_app in Heq. cbn in Heq. lia. }
  destruct err as [e|]; case_bool_decide as Heq.
  - split; [by intros ?%failure_grows|done].
  - split; [by intros ?%Hlen|done].
  - split; [intros _|done]. f_equal.
    apply (f_equal String.list_byte_of_string) in Heq.
    by rewrite !String.list_byte_of_string_of_list_byte in Heq.
  - split; [by intros ?%failure_grows|]. intros [= ->]. by destruct Heq.
Qed.

(** X9: [WithJson] sets the body whatever the encoder returns: the body of
    the request becomes the returned bytes, and a failure is recorded
    exactly when the encoder returns an error. [WithXml] does the same with
    its encoder. *)
Theorem WithJson_sets_body (m : Marshal) (value : Value) c (req : Request.t) :
  request c = Some req →
  ∃ c', WithJson m value c = Ok c' ∧ WithXml m value c = Ok c'
    ∧ request c'
      = Some (Request_set_Body req (Some (newClosingBuffer (m value).1)))
    ∧ (t c' = t c ↔ (m value).2 = None)
    ∧ response c' = response c ∧ cookies c' = cookies c.
Proof.
  intros Hreq. unfold WithJson, WithXml, WithBody.
  destruct (m value) as [encoded err]. cbn [request set_t fst snd].
  rewrite Hreq. cbn [deref mbind Result_bind].
  eexists. split; [reflexivity|]. split; [reflexivity|]. split; [done|].
  split; [|done]. cbn [t set_request set_t].
  unfold assert_Nil, assert_that. destruct err; [|done].
  split; [by intros ?%failure_grows|done].
Qed.

(** X10: one body at a time: a body set by [WithBody] or [WithString]
    replaces the body set before, and [WithString] is [WithBody] on the
    bytes of the text. *)
Theorem body_last_wins (first : Op) (body : list byte) (text : string) c c1 :
  match first with
  | OpWithBody _ | OpWithString _ => True
  | _ => False
  end →
  call c first = Ok c1 →
  WithBody body c1 = WithBody body c
  ∧ WithString text c1 = WithBody (String.list_byte_of_string text) c
  ∧ WithString text c = WithBody (String.list_byte_of_string text) c.
Proof.
  intros Hfirst Hcall. destruct first; try done; cbn [call] in Hcall.
  all: unfold WithBody, WithString in *.
  all: destruct (request c) as [req|]; [|done].
  all: cbn [deref mbind Result_bind] in Hcall; injection Hcall as <-.
  all: by destruct c, req.
Qed.

(** X11: the Cookie string of [Check] is empty exactly for the empty jar. *)
Theorem generateCookieString_empty_iff (range : MapRange) c :
  valid_range range →
  generateCookieString range c = "" ↔ cookies c = ∅.
Proof.
  intros Hrange. rewrite generateCookieString_eq.
  specialize (Hrange (cookies c)). split.
  - intros Hempty. apply map_to_list_empty_iff.
    destruct (range (cookies c)) as [|[name value] entries].
    + by apply Permutation_nil_l in Hrange.
    + cbn [cookie_string foldr] in Hempty.
      apply (f_equal String.length) in Hempty. unfold Sprintf_cookie in Hempty.
      rewrite !length_append in Hempty. cbn in Hempty. lia.
  - intros Hjar. rewrite Hjar in Hrange |- *.
    rewrite map_to_list_empty in Hrange.
    by apply Permutation_nil_r in Hrange as ->.
Qed.

(** X12: what [Check] prints for an entry of the jar is not read back as
    that entry by the cookie loop: for a name that is not empty and has no
    [=], the line [name=value;] is stored as the name with the value
    followed by the [;]. *)
Theorem cookie_entry_reparsed jar (name value : string) :
  name ≠ "" → ¬ contains name "=" →
  handleCookies_body jar (Sprintf_cookie (name, value))
  = Ok (<[name := value +:+ ";"]> jar).
Proof.
  intros Hne Hname. unfold Sprintf_cookie. cbn [fst snd].
  by apply handleCookies_body_found.
Qed.

(** ** What each call leaves alone *)

Lemma assert_that_prefix (l : testing_T) (ok : bool) (msg : string) :
  l `prefix_of` assert_that l ok msg.
Proof. unfold assert_that. destruct ok; [done|]. by apply prefix_app_r. Qed.

Lemma call_frame c c' (op : Op) :
  call c op = Ok c' →
  (is_Check op = false → cookies c' = cookies c ∧ handler c' = handler c)
  ∧ t c `prefix_of` t c'
  ∧ (is_assertion op = true →
     request c' = request c ∧ cookies c' = cookies c ∧ handler c' = handler c)
  ∧ (is_builder op = true →
     t c' = t c ∧ response c' = response c ∧ cookies c' = cookies c
     ∧ handler c' = handler c).
Proof.
  destruct op; cbn [call is_Check is_assertion is_builder];
    rewrite ?Check_eq;
    unfold TestRequest, Test, WithHeader, HasHeader, HasCookie, WithCookie,
      HasStatus, WithJson, WithXml, HasJson, HasXml, HasBody, HasString,
      HasBody, WithBody, WithString, Cb;
    rewrite ?ioutil_ReadAll_all;
    repeat (first [ progress cbn [mbind Result_bind deref]
                  | case_match
                  | match goal with
                    | |- context [mbind _ ?m] => destruct m eqn:?
                    end ]; try done);
    rewrite ?ioutil_ReadAll_all;
    intros; simplify_eq; cbn [t set_t set_request set_response cookies handler
                              request response];
    repeat split; try done;
    unfold assert_NotNil, assert_Nil, assert_Exactly, assert_Equal,
      assert_Equal_bytes, assert_True;
    repeat (etrans; [|apply assert_that_prefix]); done.
Qed.

(** X13: the failures only grow: over any sequence of calls the failures
    recorded before are a prefix of the failures recorded after. *)
Theorem failures_only_grow (ops : list Op) c c' :
  run ops c = Ok c' → t c `prefix_of` t c'.
Proof.
  revert c. induction ops as [|op ops IH]; intros c; [by intros [= <-]|].
  unfold run. cbn [for_range].
  destruct (call c op) as [c1|] eqn:Hcall; [|done]. cbn [mbind Result_bind].
  intros Hrun%IH. etrans; [|done]. by apply call_frame in Hcall as (_ & ? & _).
Qed.

(** X14: only [Check] writes to the jar and runs the handler: a sequence
    of calls without a [Check] leaves both as they were. *)
Theorem only_Check_writes_jar (ops : list Op) c c' :
  forallb (λ op, negb (is_Check op)) ops = true →
  run ops c = Ok c' →
  cookies c' = cookies c ∧ handler c' = handler c.
Proof.
  revert c. induction ops as [|op ops IH]; intros c Hops;
    [by intros [= <-]|].
  cbn [forallb] in Hops. apply andb_true_iff in Hops as [Hop Hops].
  apply negb_true_iff in Hop.
  unfold run. cbn [for_range].
  destruct (call c op) as [c1|] eqn:Hcall; [|done]. cbn [mbind Result_bind].
  intros [Hjar Hh]%IH; [|done].
  apply call_frame in Hcall as (Hframe & _).
  destruct (Hframe Hop) as [Hjar1 Hh1]. split; congruence.
Qed.

(** X15: an assertion leaves the request, the jar and the handler as they
    are; WithHeader, WithCookie, WithBody and WithString leave the
    failures, the response, the jar and the handler as they are. *)
Theorem assertions_and_builders_frame (op : Op) c c' :
  call c op = Ok c' →
  (is_assertion op = true →
   request c' = request c ∧ cookies c' = cookies c ∧ handler c' = handler c)
  ∧ (is_builder op = true →
     t c' = t c ∧ response c' = response c ∧ cookies c' = cookies c
     ∧ handler c' = handler c).
Proof. by intros (_ & _ & ? & ?)%call_frame. Qed.

(** ** The names in the jar *)

Lemma storable_pair_ok (str : string) :
  storable str = true →
  (cookie_pair str).1 ≠ "" ∧ ¬ contains (cookie_pair str).1 "=".
Proof.
  unfold storable. destruct (strings_Index_spec str) as [Hno|pre post -> Hpre];
    [done|].
  rewrite cookie_pair_found by done. cbn [fst]. intros Hpos.
  split; [by intros ->|done].
Qed.

Lemma write_all_names_ok jar (entries : list (string * string)) :
  names_ok jar →
  Forall (λ entry, entry.1 ≠ "" ∧ ¬ contains entry.1 "=") entries →
  names_ok (write_all jar entries).
Proof.
  intros Hjar Hall. revert jar Hjar.
  induction Hall as [|[n v] entries Hn _ IH]; intros jar Hjar; [done|].
  cbn [write_all foldl]. apply IH. intros name.
  destruct (decide (n = name)) as [<-|Hne]; [done|].
  rewrite lookup_insert_ne by done. apply Hjar.
Qed.

Lemma call_names_ok c c' (op : Op) :
  names_ok (cookies c) → call c op = Ok c' → names_ok (cookies c').
Proof.
  intros Hjar Hcall. destruct (is_Check op) eqn:Hop.
  - destruct op; try done. cbn [call] in Hcall. rewrite Check_eq in Hcall.
    destruct (outgoing range c) as [out|]; [|done].
    cbn [mbind Result_bind] in Hcall.
    destruct (forallb _ _) eqn:Hall; [|done]. injection Hcall as <-.
    cbn [cookies]. apply write_all_names_ok; [done|].
    unfold stored_by. apply Forall_fmap, Forall_forall.
    intros str Hin%list_elem_of_In. apply storable_pair_ok.
    rewrite forallb_forall in Hall. by apply Hall.
  - apply call_frame in Hcall as (Hframe & _).
    by destruct (Hframe Hop) as [-> _].
Qed.

(** X16: the names in the jar are never empty and never have a [=]: a jar
    of such names keeps the property over any sequence of calls. *)
Theorem jar_names_ok (ops : list Op) c c' :
  names_ok (cookies c) → run ops c = Ok c' → names_ok (cookies c').
Proof.
  revert c. induction ops as [|op ops IH]; intros c Hjar;
    [by intros [= <-]|].
  unfold run. cbn [for_range].
  destruct (call c op) as [c1|] eqn:Hcall; [|done]. cbn [mbind Result_bind].
  apply IH. by eapply call_names_ok.
Qed.

(** X17: a response without Set-Cookie values never makes [Check] panic
    and leaves the jar and the failures as they are. *)
Theorem Check_without_cookies (range : MapRange) c (out : Request.t) :
  outgoing range c = Ok out →
  set_cookie_lines (dispatch c out).2 = [] →
  ∃ c', Check range c = Ok c' ∧ cookies c' = cookies c ∧ t c' = t c
    ∧ response c' = Some (dispatch c out).2.
Proof.
  intros Hout Hlines. rewrite Check_eq, Hout. cbn [mbind Result_bind].
  unfold stored_by. rewrite Hlines. by eexists.
Qed.

Lemma latest_absent (name : string) (log : list (string * string)) :
  (∀ entry, entry ∈ log → entry.1 ≠ name) → latest name log = None.
Proof.
  induction log as [|[n v] log IH]; intros Hlog; [done|].
  cbn [latest]. rewrite IH by (intros entry Hin; apply Hlog; by right).
  destruct (decide (n = name)) as [Heq|]; [|done].
  by destruct (Hlog (n, v) ltac:(by left)).
Qed.

(** X18: of the Set-Cookie values of one response the last one for a name
    wins, whatever values for other names come before or after it, and the
    jar keeps all that follows the first [=], attributes included: after
    the execution [HasCookie] passes for that name exactly on this whole
    remainder. *)
Theorem Check_then_HasCookie (range : MapRange) c (out : Request.t)
  (lines rest : list string) (pre post : string) :
  outgoing range c = Ok out →
  set_cookie_lines (dispatch c out).2
  = lines ++ [pre +:+ "=" +:+ post] ++ rest →
  forallb storable lines = true → forallb storable rest = true →
  (∀ str, str ∈ rest → (cookie_pair str).1 ≠ pre) →
  pre ≠ "" → ¬ contains pre "=" →
  ∃ c', Check range c = Ok c'
    ∧ cookies c' !! pre = Some post
    ∧ ∀ value, ∃ c'', HasCookie pre value c' = Ok c''
        ∧ (t c'' = t c' ↔ value = post).
Proof.
  intros Hout Hlines Hall Hrest Hother Hne Hpre.
  rewrite Check_eq, Hout. cbn [mbind Result_bind].
  unfold stored_by. rewrite Hlines, !forallb_app, Hall, Hrest.
  cbn [forallb andb].
  assert (storable (pre +:+ "=" +:+ post) = true) as ->.
  { unfold storable. rewrite strings_Index_found by done.
    apply Z.gtb_lt. destruct pre; [done|]. unfold len; cbn [String.length]. lia. }
  cbn [andb]. eexists. split; [reflexivity|]. cbn [cookies].
  assert (write_all (cookies c)
            (cookie_pair <$> lines ++ [pre +:+ "=" +:+ post] ++ rest) !! pre
          = Some post) as Hjar.
  { rewrite !fmap_app, !write_all_app, write_all_lookup.
    rewrite latest_absent.
    - cbn [fmap list_fmap write_all foldl].
      rewrite cookie_pair_found by done. cbn [fst snd]. apply lookup_insert_eq.
    - intros entry (str & -> & Hin)%list_elem_of_fmap. by apply Hother. }
  split; [done|]. intros value. eexists. split; [reflexivity|].
  etrans; [by apply HasCookie_t|]. cbn [cookies]. rewrite Hjar.
  split; [by intros [= ->]|by intros ->].
Qed.

(** X19: a request whose header map is nil, as a custom request may be,
    makes WithHeader, WithCookie and Check panic on the write to the map;
    WithBody and WithString do not write to it. *)
Theorem nil_header_map c (req : Request.t) :
  request c = Some req → Request.Header req = None →
  (∀ key value,
     WithHeader key value c = Panic "assignment to entry in nil map")
  ∧ (∀ key value,
       WithCookie key value c = Panic "assignment to entry in nil map")
  ∧ (∀ range, Check range c = Panic "assignment to entry in nil map")
  ∧ (∀ body, panics (WithBody body c) = false)
  ∧ (∀ body, panics (WithString body c) = false).
Proof.
  intros Hreq Hhdr.
  unfold WithHeader, WithCookie, Check, outgoing, WithBody, WithString,
    Request_AddCookie, Request_Header_Set, Header_Get, Header_Set.
  rewrite Hreq. cbn [deref mbind Result_bind]. rewrite Hhdr.
  cbn [mbind option_bind]. by repeat split.
Qed.
End MoreFacts.

(** ** The body adapter *)

(** X20: [Read] through the adapter hands out a prefix of the unread bytes
    and keeps the rest: it returns at most as many bytes as asked for, and
    reports EOF exactly when bytes are asked of an empty body; [Close]
    returns no error. *)
Theorem ReadCloser_Read_split (rc : ReadCloser) (n : nat) :
  (ReadCloser_Read rc n).1.1 ++ rd (ReadCloser_Read rc n).2 = rd rc
  ∧ length (ReadCloser_Read rc n).1.1 = (n `min` length (rd rc))%nat
  ∧ ((ReadCloser_Read rc n).1.2 = Some "EOF" ↔ rd rc = [] ∧ n ≠ 0%nat)
  ∧ ((ReadCloser_Read rc n).1.2 = None
     ∨ (ReadCloser_Read rc n).1.2 = Some "EOF")
  ∧ ReadCloser_Close (ReadCloser_Read rc n).2 = None.
Proof.
  destruct rc as [[|x b]]; unfold ReadCloser_Read, Buffer_Read; cbn [rd fst snd].
  - split; [done|]. split; [by rewrite Nat.min_0_r|].
    case_decide; (split; [split; [by intros ?|by intros [_ ?]]|]);
      (split; [first [by left|by right]|done]).
  - split; [apply take_drop|]. split; [apply length_take|].
    split; [split; [done|by intros [? _]]|]. split; [by left|done].
Qed.

(** X21: reading to the end returns all the unread bytes without an error
    and leaves the body empty, so reading to the end again returns no byte
    and no error. *)
Theorem ReadAll_twice (r : ReadCloser) :
  (ioutil_ReadAll r).1 = (rd r, None)
  ∧ ioutil_ReadAll (ioutil_ReadAll r).2 = ([], None, (ioutil_ReadAll r).2).
Proof. by rewrite !ioutil_ReadAll_all. Qed.

(** * The sample library: concrete runs *)

Import Sample.

Lemma Test_targets (script : list ResponseRecorder) :
  Test "get" "/ping" (fresh script) = Ok (targeted script).
Proof. reflexivity. Qed.

Lemma echo_handler_echoes : echoes (serve := echo_handler).
Proof.
  intros h recorder req b Hb. unfold ServeHTTP, echo_handler. by rewrite Hb.
Qed.

(** C1, counterexample: on a Checker without a request [Check] panics
    although no response, hence no Set-Cookie value, exists. *)
Lemma Check_without_request_aborts :
  panics (Check map_to_list (fresh [])) = true
  ∧ ¬ ∃ out, outgoing map_to_list (fresh []) = Ok out
        ∧ ∃ str, str ∈ set_cookie_lines (dispatch (fresh []) out).2
                 ∧ ¬ contains str "=".
Proof. split; [reflexivity|]. by intros (out & Hout & _). Qed.

(** [novalue] makes [Check] panic, [a=1] does not. *)
Lemma Check_aborts_witness :
  Check map_to_list (targeted [set_cookies_recorder ["novalue"]])
  = Panic "did not find = in cookie string"
  ∧ ∃ c', Check map_to_list (targeted [set_cookies_recorder ["a=1"]]) = Ok c'.
Proof.
  split.
  - destruct (Check_aborts map_to_list
      (targeted [set_cookies_recorder ["novalue"]])) as [_ Hsome].
    destruct (Hsome ping_request ∅ eq_refl eq_refl) as (out & Hout & Hpanic & _).
    apply Hpanic. exists "novalue". injection Hout as <-. split.
    + vm_compute. apply list_elem_of_here.
    + by apply strings_Index_none.
  - destruct (Check_aborts map_to_list
      (targeted [set_cookies_recorder ["a=1"]])) as [_ Hsome].
    destruct (Hsome ping_request ∅ eq_refl eq_refl) as (out & Hout & _ & Hok).
    apply Hok. injection Hout as <-. intros str Hin.
    vm_compute in Hin. apply list_elem_of_singleton in Hin as ->.
    split; [by exists "a", "1"|reflexivity].
Defined.

(** C6, at the failing input: the Set-Cookie value [=1] has a [=], and
    [Check] panics on it instead of storing the empty name with the value
    [1]. *)
Lemma Check_leading_equals_aborts :
  contains "=1" "="
  ∧ cookie_pair "=1" = ("", "1")
  ∧ Check map_to_list (targeted [set_cookies_recorder ["=1"]])
    = Panic "did not find = in cookie string".
Proof. split; [by exists "", "1"|]. split; reflexivity. Qed.

(** C4, at the failing input: after [WithCookie("a", "1")] the request
    carries the cookie, and the request that [Check] hands to the handler
    carries an empty Cookie header. *)
Lemma WithCookie_lost_by_Check :
  ∃ c out,
    WithCookie "a" "1" (targeted []) = Ok c
    ∧ (λ req, Header_Get (Request.Header req) "Cookie") <$> request c = Some "a=1"
    ∧ outgoing map_to_list c = Ok out
    ∧ Header_Get (Request.Header out) "Cookie" = ""
    ∧ ∃ c', Check map_to_list c = Ok c'
        ∧ (λ req, Header_Get (Request.Header req) "Cookie") <$> request c' = Some "".
Proof.
  eexists _, _. split; [reflexivity|]. split; [reflexivity|].
  split; [reflexivity|]. split; [reflexivity|].
  eexists. split; reflexivity.
Qed.

(** C8, counterexample: [TestRequest(nil)] on a Checker that has a request
    leaves it without one. *)
Lemma TestRequest_nil_clears_request :
  ∃ c', TestRequest None (targeted []) = Ok c'
    ∧ t c' = ["Request nil"]
    ∧ request (targeted []) = Some ping_request
    ∧ request c' = None
    ∧ request c' ≠ request (targeted []).
Proof. eexists. by repeat split. Qed.

(** C5, counterexample: after an execution that answered [pong],
    [HasString("pong")] passes and empties the stored body, and the same
    call right after it records a failure. *)
Lemma HasString_twice_differs :
  ∃ c0 c1 c2,
    Check map_to_list (targeted [ping_recorder]) = Ok c0
    ∧ HasString "pong" c0 = Ok c1
    ∧ HasString "pong" c1 = Ok c2
    ∧ t c1 = t c0
    ∧ t c2 ≠ t c1
    ∧ response c1 ≠ response c0.
Proof.
  eexists _, _, _. split; [reflexivity|]. split; [reflexivity|].
  split; [reflexivity|]. by repeat split.
Qed.

Lemma valid_range_map_to_list : valid_range map_to_list.
Proof. by intros m. Qed.

(** A handler that issues two cookies named [a] on its first answer: after
    the execution and two more calls the jar holds the second value, and
    the next request carries it. *)
Lemma cookie_jar_persists_witness :
  ∃ c' out,
    run [OpTest "get" "/ping"; OpCheck map_to_list; OpHasStatus 200;
         OpWithHeader "X-Test" "ok"]
      (fresh [set_cookies_recorder ["a=0"; "a=1; Path=/"]]) = Ok c'
    ∧ cookies c' !! "a" = Some "1; Path=/"
    ∧ outgoing map_to_list c' = Ok out
    ∧ contains (Header_Get (Request.Header out) "Cookie") "a=1; Path=/;".
Proof.
  destruct (run [OpTest "get" "/ping"; OpCheck map_to_list; OpHasStatus 200;
                 OpWithHeader "X-Test" "ok"]
              (fresh [set_cookies_recorder ["a=0"; "a=1; Path=/"]]))
    as [c'|msg] eqn:Hrun; [|by vm_compute in Hrun].
  destruct (cookie_jar_persists _ _ _ Hrun) as [_ Hlast].
  destruct (Hlast "a" "1; Path=/") as [Hjar Hsend]; [by vm_compute|].
  assert (Hreq : (c ← run [OpTest "get" "/ping"; OpCheck map_to_list;
                            OpHasStatus 200; OpWithHeader "X-Test" "ok"]
                        (fresh [set_cookies_recorder ["a=0"; "a=1; Path=/"]]);
                  Ok (request c)) = Ok (request c')) by (by rewrite Hrun).
  vm_compute in Hreq. injection Hreq as Hreq.
  match type of Hreq with
  | Some ?req = _ =>
      let hdr := eval vm_compute in (default ∅ (Request.Header req)) in
      destruct (Hsend map_to_list req hdr valid_range_map_to_list)
        as (out & entries & Hout & _ & _ & _ & Hin);
        [done|vm_compute; reflexivity|]
  end.
  eexists _, out. split; [reflexivity|].
  split; [exact Hjar|]. split; [exact Hout|exact Hin].
Defined.

(** The jar [a ↦ 1] goes out as [a=1;]. *)
Lemma Check_cookie_header_witness :
  ∃ out,
    outgoing map_to_list
      {| t := []; handler := ([] : list ResponseRecorder);
         request := Some ping_request;
         response := None; cookies := {[ "a" := "1" ]} |} = Ok out
    ∧ Header_Get (Request.Header out) "Cookie" = "a=1;".
Proof.
  destruct (Check_cookie_header map_to_list
    {| t := []; handler := ([] : list ResponseRecorder);
       request := Some ping_request;
       response := None; cookies := {[ "a" := "1" ]} |} ping_request ∅)
    as (out & entries & Hout & _ & Hperm & _ & Hget & _);
    [apply valid_range_map_to_list|done..|].
  exists out. split; [done|]. rewrite Hget.
  cbn [cookies] in Hperm. rewrite map_to_list_singleton in Hperm.
  by apply Permutation_singleton_r in Hperm as ->.
Defined.

(** On a response with the body [pong], the second [HasBody] of [pong]
    records a failure. *)
Lemma assertions_and_the_response_witness :
  ∃ c' c'',
    HasBody (Some (String.list_byte_of_string "pong"))
      {| t := []; handler := ([] : list ResponseRecorder);
         request := Some ping_request;
         response := Some {| Response.StatusCode := 200;
                             Response.Body :=
                               NewReadCloser (String.list_byte_of_string "pong");
                             Response.Header := Some ∅ |};
         cookies := ∅ |} = Ok c'
    ∧ HasBody (Some (String.list_byte_of_string "pong")) c' = Ok c''
    ∧ t c'' ≠ t c'.
Proof.
  destruct (assertions_and_the_response
    {| t := []; handler := ([] : list ResponseRecorder);
       request := Some ping_request;
       response := Some {| Response.StatusCode := 200;
                           Response.Body :=
                             NewReadCloser (String.list_byte_of_string "pong");
                           Response.Header := Some ∅ |};
       cookies := ∅ |} _ eq_refl) as (_ & _ & _ & _ & _ & _ & _ & Htwice).
  destruct (Htwice (Some (String.list_byte_of_string "pong")))
    as (c' & c'' & H1 & H2 & Hiff).
  exists c', c''. split; [done|]. split; [done|].
  intros Heq. by apply Hiff in Heq.
Defined.

(** [true] through the echoing handler. *)
Lemma WithJson_HasJson_roundtrip_witness :
  ∃ c1 c2 c3,
    WithJson json_Marshal (VBool true)
      {| t := []; handler := echo; request := Some ping_request;
         response := None; cookies := ∅ |} = Ok c1
    ∧ Check map_to_list c1 = Ok c2
    ∧ HasJson json_Marshal (VBool true) c2 = Ok c3
    ∧ t c3 = [].
Proof.
  apply (WithJson_HasJson_roundtrip json_Marshal json_Marshal (VBool true)
    (String.list_byte_of_string "true") map_to_list
    {| t := []; handler := echo; request := Some ping_request;
       response := None; cookies := ∅ |} ping_request ∅);
    [apply echo_handler_echoes|reflexivity..].
Defined.

(** The header [X-Test: ok] is found under the key [x-test]; a header that
    is absent compares as the empty string. *)
Lemma HasHeader_compares_witness :
  ∃ c1 c2,
    HasHeader "x-test" "ok"
      {| t := []; handler := ([] : list ResponseRecorder);
         request := Some ping_request;
         response := Some {| Response.StatusCode := 200;
                             Response.Body := NewReadCloser [];
                             Response.Header := Some {[ "X-Test" := ["ok"] ]} |};
         cookies := ∅ |} = Ok c1
    ∧ t c1 = []
    ∧ HasHeader "X-Missing" ""
        {| t := []; handler := ([] : list ResponseRecorder);
           request := Some ping_request;
           response := Some {| Response.StatusCode := 200;
                               Response.Body := NewReadCloser [];
                               Response.Header := Some {[ "X-Test" := ["ok"] ]} |};
           cookies := ∅ |} = Ok c2
    ∧ t c2 = [].
Proof.
  destruct (HasHeader_compares "x-test" "ok"
    {| t := []; handler := ([] : list ResponseRecorder);
       request := Some ping_request;
       response := Some {| Response.StatusCode := 200;
                           Response.Body := NewReadCloser [];
                           Response.Header := Some {[ "X-Test" := ["ok"] ]} |};
       cookies := ∅ |} _ eq_refl) as (c1 & H1 & Hsome & _).
  destruct (HasHeader_compares "X-Missing" ""
    {| t := []; handler := ([] : list ResponseRecorder);
       request := Some ping_request;
       response := Some {| Response.StatusCode := 200;
                           Response.Body := NewReadCloser [];
                           Response.Header := Some {[ "X-Test" := ["ok"] ]} |};
       cookies := ∅ |} _ eq_refl) as (c2 & H2 & _ & Hnone & _).
  exists c1, c2. split; [exact H1|]. split; [by eapply Hsome|].
  split; [exact H2|]. by apply Hnone.
Defined.

(** ** Concrete runs of the other calls *)

Lemma not_contains_a : ¬ contains "a" "=".
Proof. by apply strings_Index_none. Qed.

(** [X-Test: ok] reaches the handler, a header named [cookie] does not. *)
Lemma WithHeader_then_outgoing_witness :
  (∃ c1 out, WithHeader "X-Test" "ok" (targeted []) = Ok c1
     ∧ outgoing map_to_list c1 = Ok out
     ∧ Header_Get (Request.Header out) "X-Test" = "ok")
  ∧ (∃ c1 out, WithHeader "cookie" "a=1" (targeted []) = Ok c1
       ∧ outgoing map_to_list c1 = Ok out
       ∧ Header_Get (Request.Header out) "cookie" = "").
Proof.
  split.
  - destruct (WithHeader_then_outgoing "X-Test" "ok" map_to_list (targeted [])
      ping_request ∅ eq_refl eq_refl)
      as (c1 & out & H1 & Hout & _ & _ & _ & Hget & _).
    exists c1, out. split; [done|]. split; [done|]. apply Hget. by vm_compute.
  - destruct (WithHeader_then_outgoing "cookie" "a=1" map_to_list (targeted [])
      ping_request ∅ eq_refl eq_refl)
      as (c1 & out & H1 & Hout & _ & _ & _ & _ & Hjar).
    exists c1, out. split; [done|]. split; [done|]. by rewrite Hjar.
Defined.

Lemma WithHeader_overwrites_witness :
  ∃ c1 c2 req2, WithHeader "X-Test" "a" (targeted []) = Ok c1
    ∧ WithHeader "X-Test" "b" c1 = Ok c2
    ∧ request c2 = Some req2
    ∧ Header_Get (Request.Header req2) "X-Test" = "b".
Proof.
  destruct (WithHeader_overwrites "X-Test" "a" "b" (targeted [])
    ping_request ∅ eq_refl eq_refl)
    as (c1 & c2 & req2 & H1 & H2 & _ & Hreq & Hget & _).
  by exists c1, c2, req2.
Defined.

Lemma assertions_need_response_witness :
  HasStatus 200 (targeted []) = Panic nil_dereference
  ∧ HasString "pong" (targeted []) = Panic nil_dereference.
Proof.
  destruct (assertions_need_response (targeted []) eq_refl)
    as (_ & Hstatus & _ & Hstring & _).
  split; [apply Hstatus|apply Hstring].
Defined.

Lemma Check_then_assertions_witness :
  ∃ c' c1 c2, Check map_to_list (targeted [ping_recorder]) = Ok c'
    ∧ HasStatus 200 c' = Ok c1 ∧ t c1 = t c'
    ∧ HasBody (Some (String.list_byte_of_string "pong")) c' = Ok c2 ∧ t c2 = t c'.
Proof.
  destruct (Check map_to_list (targeted [ping_recorder])) as [c'|msg] eqn:Hcheck;
    [|by vm_compute in Hcheck].
  destruct (Check_then_assertions _ _ _ Hcheck) as (_ & out & _ & Hstatus & Hbody).
  destruct (Hstatus 200) as (c1 & H1 & Hiff1).
  destruct (Hbody (Some (String.list_byte_of_string "pong"))) as (c2 & H2 & Hiff2).
  exists c', c1, c2. split; [done|]. split; [done|].
  split; [by apply Hiff1|]. split; [done|]. by apply Hiff2.
Defined.

Lemma HasString_passes_iff_witness :
  ∃ c', HasString "pong"
          {| t := []; handler := ([] : list ResponseRecorder);
             request := None;
             response := Some {| Response.StatusCode := 200;
                                 Response.Body :=
                                   NewReadCloser (String.list_byte_of_string "pong");
                                 Response.Header := Some ∅ |};
             cookies := ∅ |} = Ok c'
    ∧ t c' = [].
Proof.
  destruct (HasString_passes_iff "pong"
    {| t := []; handler := ([] : list ResponseRecorder);
       request := None;
       response := Some {| Response.StatusCode := 200;
                           Response.Body :=
                             NewReadCloser (String.list_byte_of_string "pong");
                           Response.Header := Some ∅ |};
       cookies := ∅ |} _ eq_refl) as (c' & H1 & Hiff).
  exists c'. split; [done|]. by apply Hiff.
Defined.

Lemma HasJson_passes_iff_witness :
  (∃ c', HasJson json_Marshal (VBool true)
           {| t := []; handler := ([] : list ResponseRecorder);
              request := None;
              response := Some {| Response.StatusCode := 200;
                                  Response.Body :=
                                    NewReadCloser (String.list_byte_of_string "true");
                                  Response.Header := Some ∅ |};
              cookies := ∅ |} = Ok c'
     ∧ t c' = [])
  ∧ (∃ c', HasJson json_Marshal VChan
             {| t := []; handler := ([] : list ResponseRecorder);
                request := None;
                response := Some {| Response.StatusCode := 200;
                                    Response.Body := NewReadCloser [];
                                    Response.Header := Some ∅ |};
                cookies := ∅ |} = Ok c'
       ∧ t c' ≠ []).
Proof.
  split.
  - destruct (HasJson_passes_iff json_Marshal (VBool true)
      {| t := []; handler := ([] : list ResponseRecorder);
         request := None;
         response := Some {| Response.StatusCode := 200;
                             Response.Body :=
                               NewReadCloser (String.list_byte_of_string "true");
                             Response.Header := Some ∅ |};
         cookies := ∅ |} _ eq_refl) as (c' & H1 & _ & Hiff).
    exists c'. split; [done|]. by apply Hiff.
  - destruct (HasJson_passes_iff json_Marshal VChan
      {| t := []; handler := ([] : list ResponseRecorder);
         request := None;
         response := Some {| Response.StatusCode := 200;
                             Response.Body := NewReadCloser [];
                             Response.Header := Some ∅ |};
         cookies := ∅ |} _ eq_refl) as (c' & H1 & _ & Hiff).
    exists c'. split; [done|]. by intros ?%Hiff.
Defined.

Lemma WithJson_sets_body_witness :
  ∃ c', WithJson json_Marshal VChan (targeted []) = Ok c'
    ∧ request c'
      = Some (Request_set_Body ping_request (Some (newClosingBuffer [])))
    ∧ t c' ≠ [].
Proof.
  destruct (WithJson_sets_body json_Marshal VChan (targeted []) ping_request
    eq_refl) as (c' & H1 & _ & Hreq & Hiff & _).
  exists c'. split; [done|]. split; [done|]. by intros ?%Hiff.
Defined.

Lemma body_last_wins_witness :
  ∃ c1, WithString "first" (targeted []) = Ok c1
    ∧ WithBody (String.list_byte_of_string "second") c1
      = WithBody (String.list_byte_of_string "second") (targeted []).
Proof.
  destruct (WithString "first" (targeted [])) as [c1|msg] eqn:Hcall;
    [|by vm_compute in Hcall].
  exists c1. split; [done|].
  by destruct (body_last_wins (OpWithString "first")
    (String.list_byte_of_string "second") "" (targeted []) c1 I Hcall)
    as [Hbody _].
Defined.

Lemma generateCookieString_empty_iff_witness :
  generateCookieString map_to_list (targeted []) = "".
Proof.
  by apply (generateCookieString_empty_iff map_to_list (targeted [])
    valid_range_map_to_list).
Defined.

Lemma cookie_entry_reparsed_witness :
  handleCookies_body ∅ "a=1;" = Ok {[ "a" := "1;" ]}.
Proof.
  by apply (cookie_entry_reparsed ∅ "a" "1"); [|apply not_contains_a].
Defined.

Lemma failures_only_grow_witness :
  ∃ c', run [OpTest "get" "/ping"; OpCheck map_to_list; OpHasStatus 404;
             OpHasStatus 200]
          (New ["earlier"] [ping_recorder]) = Ok c'
    ∧ ["earlier"] `prefix_of` t c'.
Proof.
  destruct (run [OpTest "get" "/ping"; OpCheck map_to_list; OpHasStatus 404;
                 OpHasStatus 200] (New ["earlier"] [ping_recorder]))
    as [c'|msg] eqn:Hrun; [|by vm_compute in Hrun].
  exists c'. split; [done|]. apply (failures_only_grow _ _ _ Hrun).
Defined.

Lemma only_Check_writes_jar_witness :
  ∃ c', run [OpTest "get" "/ping"; OpWithCookie "b" "2"; OpHasCookie "a" "1"]
          {| t := []; handler := [ping_recorder]; request := None;
             response := None; cookies := {[ "a" := "1" ]} |} = Ok c'
    ∧ cookies c' = {[ "a" := "1" ]} ∧ handler c' = [ping_recorder].
Proof.
  destruct (run [OpTest "get" "/ping"; OpWithCookie "b" "2"; OpHasCookie "a" "1"]
              {| t := []; handler := [ping_recorder]; request := None;
                 response := None; cookies := {[ "a" := "1" ]} |})
    as [c'|msg] eqn:Hrun; [|by vm_compute in Hrun].
  exists c'. split; [done|].
  exact (only_Check_writes_jar
    [OpTest "get" "/ping"; OpWithCookie "b" "2"; OpHasCookie "a" "1"]
    {| t := []; handler := [ping_recorder]; request := None;
       response := None; cookies := {[ "a" := "1" ]} |} c' eq_refl Hrun).
Defined.

Lemma assertions_and_builders_frame_witness :
  ∃ c', HasStatus 200
          {| t := []; handler := ([] : list ResponseRecorder);
             request := Some ping_request;
             response := Some {| Response.StatusCode := 200;
                                 Response.Body := NewReadCloser [];
                                 Response.Header := Some ∅ |};
             cookies := ∅ |} = Ok c'
    ∧ request c' = Some ping_request.
Proof.
  destruct (HasStatus 200
    {| t := []; handler := ([] : list ResponseRecorder);
       request := Some ping_request;
       response := Some {| Response.StatusCode := 200;
                           Response.Body := NewReadCloser [];
                           Response.Header := Some ∅ |};
       cookies := ∅ |}) as [c'|msg] eqn:Hcall; [|by vm_compute in Hcall].
  exists c'. split; [done|].
  destruct (assertions_and_builders_frame (OpHasStatus 200) _ _ Hcall)
    as [Hassert _].
  by destruct (Hassert eq_refl) as [-> _].
Defined.

Lemma jar_names_ok_witness :
  ∃ c', run [OpTest "get" "/ping"; OpCheck map_to_list]
          (fresh [set_cookies_recorder ["a=1"; "b=2; Path=/"]]) = Ok c'
    ∧ names_ok (cookies c').
Proof.
  destruct (run [OpTest "get" "/ping"; OpCheck map_to_list]
              (fresh [set_cookies_recorder ["a=1"; "b=2; Path=/"]]))
    as [c'|msg] eqn:Hrun; [|by vm_compute in Hrun].
  exists c'. split; [done|].
  apply (jar_names_ok [OpTest "get" "/ping"; OpCheck map_to_list]
    (fresh [set_cookies_recorder ["a=1"; "b=2; Path=/"]])); [|done].
  intros name [value Hlookup]. unfold fresh, New in Hlookup.
  cbn [cookies] in Hlookup. by rewrite lookup_empty in Hlookup.
Defined.

Lemma Check_without_cookies_witness :
  ∃ c', Check map_to_list
          {| t := []; handler := [ping_recorder];
             request := Some ping_request; response := None;
             cookies := {[ "a" := "1" ]} |} = Ok c'
    ∧ cookies c' = {[ "a" := "1" ]}.
Proof.
  destruct (outgoing map_to_list
    {| t := []; handler := [ping_recorder];
       request := Some ping_request; response := None;
       cookies := {[ "a" := "1" ]} |}) as [out|msg] eqn:Hout;
    [|by vm_compute in Hout].
  destruct (Check_without_cookies _ _ out Hout) as (c' & Hcheck & Hjar & _);
    [reflexivity|].
  by exists c'.
Defined.

Lemma Check_then_HasCookie_witness :
  ∃ c' c1 c2,
    Check map_to_list
      (targeted [set_cookies_recorder ["a=0"; "b=1"; "a=1; Path=/"; "b=2"]])
    = Ok c'
    ∧ HasCookie "a" "1; Path=/" c' = Ok c1 ∧ t c1 = t c'
    ∧ HasCookie "a" "1" c' = Ok c2 ∧ t c2 ≠ t c'.
Proof.
  destruct (outgoing map_to_list
    (targeted [set_cookies_recorder ["a=0"; "b=1"; "a=1; Path=/"; "b=2"]]))
    as [out|msg] eqn:Hout; [|by vm_compute in Hout].
  destruct (Check_then_HasCookie map_to_list _ out ["a=0"; "b=1"] ["b=2"]
              "a" "1; Path=/" Hout)
    as (c' & Hcheck & _ & Hhas);
    [reflexivity|reflexivity|reflexivity| |done|apply not_contains_a|].
  { intros str ->%list_elem_of_singleton. by vm_compute. }
  destruct (Hhas "1; Path=/") as (c1 & H1 & Hiff1).
  destruct (Hhas "1") as (c2 & H2 & Hiff2).
  exists c', c1, c2. split; [done|]. split; [done|]. split; [by apply Hiff1|].
  split; [done|]. by intros ?%Hiff2.
Defined.

Lemma nil_header_map_witness :
  ∃ c', TestRequest
          (Some {| Request.Method := ""; Request.URL := "";
                   Request.Header := None; Request.Body := None |})
          (fresh []) = Ok c'
    ∧ t c' = []
    ∧ Check map_to_list c' = Panic "assignment to entry in nil map"
    ∧ panics (WithString "body" c') = false.
Proof.
  destruct (TestRequest
    (Some {| Request.Method := ""; Request.URL := "";
             Request.Header := None; Request.Body := None |}) (fresh []))
    as [c'|msg] eqn:Hcall; [|by vm_compute in Hcall].
  injection Hcall as <-. eexists. split; [reflexivity|]. split; [done|].
  destruct (nil_header_map
    (set_request
       (set_t (fresh [])
          (assert_NotNil (t (fresh []))
             (Some {| Request.Method := ""; Request.URL := "";
                      Request.Header := None; Request.Body := None |})
             "Request nil"))
       (Some {| Request.Method := ""; Request.URL := "";
                Request.Header := None; Request.Body := None |}))
    _ eq_refl eq_refl) as (_ & _ & Hcheck & _ & Hstring).
  split; [apply Hcheck|apply Hstring].
Defined.
